(** * Focara waitlist service: schema, storage and routes

    A shallow embedding of
    - [shared/schema.ts]  (the two tables and the insert schemas),
    - [server/storage.ts] (class [DatabaseStorage]),
    - [server/routes.ts]  (the two handlers of [registerRoutes]),
    with the parts of zod, drizzle and express that these files rely on.

    JS objects are finite maps from keys to values, table contents are
    lists of rows in insertion order, and an [async] function is a
    function on the state of the system that either returns or throws.
    A [text] column is compared by equality of its bytes; a round trip to
    the database that fails leaves the statement unexecuted. *)

From Stdlib Require Import ZArith Ascii String List Lia.
From stdpp Require Import base option list gmap strings pretty infinite.

Local Open Scope Z_scope.
Local Open Scope string_scope.

(** ** JSON values

    [req.body] after the JSON body parser, and what [res.json] sends.
    Numbers are kept as integers: the routes only look at the [typeof] of
    a number they receive, and the only number they send is a row count. *)

Local Unset Elimination Schemes.
Inductive json : Type :=
| JNull
| JBool (b : bool)
| JNum (n : Z)
| JStr (s : string)
| JArr (items : list json)
| JObj (fields : gmap string json).
Local Set Elimination Schemes.

(** ** shared/schema.ts *)

(** [typeof users.$inferSelect] *)
Module User.
Record t : Type := mk { id : string; username : string; password : string }.
End User.

(** [z.infer<typeof insertUserSchema>] *)
Module InsertUser.
Record t : Type := mk { username : string; password : string }.
End InsertUser.

(** [typeof waitlistRegistrations.$inferSelect] *)
Module WaitlistRegistration.
Record t : Type := mk {
    id : string;
    firstName : string;
    lastName : string;
    email : string;
    createdAt : Z
  }.
End WaitlistRegistration.

(** [z.infer<typeof insertWaitlistRegistrationSchema>]: the three picked
    columns and nothing else. *)
Module InsertWaitlistRegistration.
Record t : Type := mk { firstName : string; lastName : string; email : string }.
End InsertWaitlistRegistration.

(** *** zod: parsed types, issues, [safeParse] *)

Inductive ZodParsedType : Type :=
| ZUndefined | ZNull | ZString | ZNumber | ZBoolean | ZArray | ZObject.

Definition ZodParsedType_name (t : ZodParsedType) : string :=
  match t with
  | ZUndefined => "undefined"
  | ZNull => "null"
  | ZString => "string"
  | ZNumber => "number"
  | ZBoolean => "boolean"
  | ZArray => "array"
  | ZObject => "object"
  end.

(** [getParsedType(data)]; a key that is absent from an object reads as
    [undefined]. *)
Definition getParsedType (data : option json) : ZodParsedType :=
  match data with
  | None => ZUndefined
  | Some JNull => ZNull
  | Some (JBool _) => ZBoolean
  | Some (JNum _) => ZNumber
  | Some (JStr _) => ZString
  | Some (JArr _) => ZArray
  | Some (JObj _) => ZObject
  end.

Record ZodIssue : Type := mkIssue {
  code : string;
  expected : ZodParsedType;
  received : ZodParsedType;
  path : list string;
  message : string
}.

(** The [invalid_type] issue with the message of zod's default error map. *)
Definition invalid_type (exp rcv : ZodParsedType) (at_path : list string) : ZodIssue :=
  {| code := "invalid_type";
     expected := exp;
     received := rcv;
     path := at_path;
     message :=
       match rcv with
       | ZUndefined => "Required"
       | _ => "Expected " ++ ZodParsedType_name exp ++ ", received " ++ ZodParsedType_name rcv
       end |}.

(** [z.string()], which is what [createInsertSchema] derives from a
    [text(...).notNull()] column: the value has to be a string, any
    string. *)
Definition ZodString_parse (at_path : list string) (data : option json)
  : list ZodIssue + string :=
  match data with
  | Some (JStr s) => inr s
  | _ => inl [invalid_type ZString (getParsedType data) at_path]
  end.

Definition issues_of {A : Type} (r : list ZodIssue + A) : list ZodIssue :=
  match r with
  | inl issues => issues
  | inr _ => []
  end.

Inductive SafeParseReturnType : Type :=
| SafeParseSuccess (data : InsertWaitlistRegistration.t)
| SafeParseError (issues : list ZodIssue).

(** [insertWaitlistRegistrationSchema.safeParse]: an object schema with
    the keys [firstName], [lastName], [email]; keys outside the shape are
    stripped, and every key of the shape is parsed, so one input can
    carry several issues. *)
Definition insertWaitlistRegistrationSchema_safeParse (input : json)
  : SafeParseReturnType :=
  match input with
  | JObj fields =>
      let firstName := ZodString_parse ["firstName"] (fields !! "firstName") in
      let lastName := ZodString_parse ["lastName"] (fields !! "lastName") in
      let email := ZodString_parse ["email"] (fields !! "email") in
      match firstName, lastName, email with
      | inr f, inr l, inr e =>
          SafeParseSuccess
            {| InsertWaitlistRegistration.firstName := f;
               InsertWaitlistRegistration.lastName := l;
               InsertWaitlistRegistration.email := e |}
      | _, _, _ =>
          SafeParseError (issues_of firstName ++ issues_of lastName ++ issues_of email)
      end
  | _ => SafeParseError [invalid_type ZObject (getParsedType (Some input)) []]
  end.

(** An issue as [res.json] serialises it. *)
Definition ZodIssue_json (i : ZodIssue) : json :=
  JObj {[ "code" := JStr (code i);
          "expected" := JStr (ZodParsedType_name (expected i));
          "received" := JStr (ZodParsedType_name (received i));
          "path" := JArr (JStr <$> path i);
          "message" := JStr (message i) ]}.

(** ** Text on its way to the database

    A JS string is kept here as its bytes in generalised UTF-8: UTF-8,
    with a surrogate that has no partner written as the three bytes
    [ED A0..BF 80..BF]. The driver sends every text parameter as UTF-8,
    with U+FFFD ([EF BF BD]) in the place of each such surrogate, and
    PostgreSQL refuses a text parameter that has a zero byte in it. What
    a statement returns is what was stored. *)

Fixpoint has_NUL (s : string) : bool :=
  match s with
  | EmptyString => false
  | String c rest => Ascii.eqb c "000"%char || has_NUL rest
  end.

Definition is_lone_surrogate (a b c : ascii) : bool :=
  (N_of_ascii a =? 237)%N &&
  (160 <=? N_of_ascii b)%N && (N_of_ascii b <=? 191)%N &&
  (128 <=? N_of_ascii c)%N && (N_of_ascii c <=? 191)%N.

Fixpoint encode_utf8 (s : string) : string :=
  match s with
  | EmptyString => EmptyString
  | String a rest =>
      match rest with
      | String b (String c rest') =>
          if is_lone_surrogate a b c
          then String "239"%char (String "191"%char (String "189"%char (encode_utf8 rest')))
          else String a (encode_utf8 rest)
      | _ => String a (encode_utf8 rest)
      end
  end.

(** A string of decimal digits. *)
Fixpoint digits (s : string) : Prop :=
  match s with
  | EmptyString => True
  | String c rest => (48 <= N_of_ascii c <= 57)%N /\ digits rest
  end.

(** A string that the database takes and gives back as it is. *)
Definition stored_verbatim (s : string) : Prop :=
  has_NUL s = false /\ encode_utf8 s = s.

(** The entry of a text value in a B-tree index: the tuple header, the
    length word of the value and its bytes, rounded up to a multiple of
    8; it may not exceed [BTMaxItemSize]. PostgreSQL tries to compress a
    long value first; values that would only fit once compressed are
    taken not to fit. *)
Definition BTMaxItemSize : nat := 2704.

Definition index_row_size (value : string) : nat :=
  let len := String.length value in
  let datum := if Nat.leb len 126 then (1 + len)%nat else (4 + len)%nat in
  (8 * ((8 + datum + 7) / 8))%nat.

Definition indexable (value : string) : Prop :=
  (index_row_size value <= BTMaxItemSize)%nat.

(** ** The database behind [db]

    Two tables. [gen_random_uuid()] is the column default of both primary
    keys; it is modelled as a generator of identifiers that are not yet a
    key of the table. *)

Record Database : Type := mkDatabase {
  users : list User.t;
  waitlistRegistrations : list WaitlistRegistration.t
}.

Definition empty_database : Database :=
  {| users := []; waitlistRegistrations := [] |}.

Definition gen_random_uuid (keys : list string) : string := fresh keys.

(** What a failed promise carries. For an error of the database these
    are the fields the driver copies from the server's report: its
    SQLSTATE, its message and the constraint it names. A drizzle that
    wraps the driver's error keeps it as the [cause] of its own; it is
    the report that is kept here. The stack trace is left empty: the
    handlers never read it. *)
Record Error : Type := mkError {
  err_code : string;
  err_message : string;
  err_constraint : option string;
  err_stack : string
}.

Definition quoted (name : string) : string :=
  String "034"%char name ++ String "034"%char EmptyString.

(** PostgreSQL's [unique_violation]. *)
Definition unique_violation (constraint : string) : Error :=
  {| err_code := "23505";
     err_message := "duplicate key value violates unique constraint " ++ quoted constraint;
     err_constraint := Some constraint;
     err_stack := "" |}.

(** PostgreSQL's [character_not_in_repertoire], for a zero byte. *)
Definition invalid_byte_sequence : Error :=
  {| err_code := "22021";
     err_message := "invalid byte sequence for encoding " ++ quoted "UTF8" ++ ": 0x00";
     err_constraint := None;
     err_stack := "" |}.

(** PostgreSQL's [program_limit_exceeded], for an index entry. *)
Definition index_row_too_large (value index : string) : Error :=
  {| err_code := "54000";
     err_message :=
       "index row size " ++ pretty (index_row_size value) ++
       " exceeds btree version 4 maximum " ++ pretty BTMaxItemSize ++
       " for index " ++ quoted index;
     err_constraint := None;
     err_stack := "" |}.

Definition TypeError (msg : string) : Error :=
  {| err_code := "TypeError"; err_message := msg; err_constraint := None;
     err_stack := "" |}.

Inductive Outcome (A : Type) : Type :=
| Return (a : A)
| Throw (e : Error).
Arguments Return {A} a.
Arguments Throw {A} e.

(** *** The statements the storage class sends *)

Inductive Table : Type := users_table | waitlist_registrations_table.

Inductive Query : Type :=
| select_users_by_id (id : string)
| select_users_by_username (username : string)
| insert_users (values : InsertUser.t)
| select_waitlist_by_email (email : string)
| insert_waitlist (values : InsertWaitlistRegistration.t)
| select_count_waitlist.

Definition table_of (q : Query) : Table :=
  match q with
  | select_users_by_id _ | select_users_by_username _ | insert_users _ => users_table
  | select_waitlist_by_email _ | insert_waitlist _ | select_count_waitlist =>
      waitlist_registrations_table
  end.

Definition is_insert (q : Query) : bool :=
  match q with
  | insert_users _ | insert_waitlist _ => true
  | _ => false
  end.

(** [db.select().from(users).where(eq(users.id, id))] *)
Definition exec_select_users_by_id (id : string) (d : Database)
  : Outcome (list User.t) * Database :=
  if has_NUL id then (Throw invalid_byte_sequence, d)
  else
    (Return (List.filter (fun u => String.eqb (User.id u) (encode_utf8 id)) (users d)), d).

(** [db.select().from(users).where(eq(users.username, username))] *)
Definition exec_select_users_by_username (username : string) (d : Database)
  : Outcome (list User.t) * Database :=
  if has_NUL username then (Throw invalid_byte_sequence, d)
  else
    (Return (List.filter (fun u => String.eqb (User.username u) (encode_utf8 username))
               (users d)), d).

(** [db.insert(users).values(insertUser).returning()]: the two values
    have to be acceptable text; the primary key and the unique constraint
    on [username] are checked by the database, and the username has to
    fit into the index of that constraint. *)
Definition exec_insert_users (v : InsertUser.t) (d : Database)
  : Outcome (list User.t) * Database :=
  if has_NUL (InsertUser.username v) || has_NUL (InsertUser.password v) then
    (Throw invalid_byte_sequence, d)
  else
    let row :=
      {| User.id := gen_random_uuid (User.id <$> users d);
         User.username := encode_utf8 (InsertUser.username v);
         User.password := encode_utf8 (InsertUser.password v) |} in
    if existsb (fun u => String.eqb (User.id u) (User.id row)) (users d) then
      (Throw (unique_violation "users_pkey"), d)
    else if existsb (fun u => String.eqb (User.username u) (User.username row)) (users d)
    then (Throw (unique_violation "users_username_unique"), d)
    else if negb (Nat.leb (index_row_size (User.username row)) BTMaxItemSize) then
      (Throw (index_row_too_large (User.username row) "users_username_unique"), d)
    else
      (Return [row],
       {| users := users d ++ [row]; waitlistRegistrations := waitlistRegistrations d |}).

(** [db.select().from(waitlistRegistrations).where(eq(waitlistRegistrations.email, email))] *)
Definition exec_select_waitlist_by_email (email : string) (d : Database)
  : Outcome (list WaitlistRegistration.t) * Database :=
  if has_NUL email then (Throw invalid_byte_sequence, d)
  else
    (Return (List.filter
               (fun r => String.eqb (WaitlistRegistration.email r) (encode_utf8 email))
               (waitlistRegistrations d)), d).

(** [db.insert(waitlistRegistrations).values(insertRegistration).returning()]:
    the three values have to be acceptable text; [id] and [createdAt]
    take their column defaults; the primary key and the unique constraint
    on [email] are checked by the database, and the email has to fit into
    the index of that constraint. *)
Definition exec_insert_waitlist (v : InsertWaitlistRegistration.t) (now : Z) (d : Database)
  : Outcome (list WaitlistRegistration.t) * Database :=
  if has_NUL (InsertWaitlistRegistration.firstName v) ||
     has_NUL (InsertWaitlistRegistration.lastName v) ||
     has_NUL (InsertWaitlistRegistration.email v) then
    (Throw invalid_byte_sequence, d)
  else
    let row :=
      {| WaitlistRegistration.id :=
           gen_random_uuid (WaitlistRegistration.id <$> waitlistRegistrations d);
         WaitlistRegistration.firstName :=
           encode_utf8 (InsertWaitlistRegistration.firstName v);
         WaitlistRegistration.lastName :=
           encode_utf8 (InsertWaitlistRegistration.lastName v);
         WaitlistRegistration.email := encode_utf8 (InsertWaitlistRegistration.email v);
         WaitlistRegistration.createdAt := now |} in
    if existsb (fun r => String.eqb (WaitlistRegistration.id r) (WaitlistRegistration.id row))
         (waitlistRegistrations d) then
      (Throw (unique_violation "waitlist_registrations_pkey"), d)
    else if existsb
              (fun r => String.eqb (WaitlistRegistration.email r)
                          (WaitlistRegistration.email row))
              (waitlistRegistrations d) then
      (Throw (unique_violation "waitlist_registrations_email_unique"), d)
    else if negb (Nat.leb (index_row_size (WaitlistRegistration.email row)) BTMaxItemSize)
    then
      (Throw (index_row_too_large (WaitlistRegistration.email row)
                "waitlist_registrations_email_unique"), d)
    else
      (Return [row],
       {| users := users d; waitlistRegistrations := waitlistRegistrations d ++ [row] |}).

(** [db.select({ count: count() }).from(waitlistRegistrations)]: one row,
    whose [count] is the number of rows of the table. *)
Definition exec_select_count_waitlist (d : Database) : list Z :=
  [Z.of_nat (length (waitlistRegistrations d))].

(** ** The running system

    Besides the database, the state records what the handlers can observe
    or cause outside it: the database clock read by [defaultNow()], what
    happens around each round trip to the database ([env]), the statements
    sent so far, and the server console. *)

(** One entry of [env] is consumed by every [await] on the database:
    nothing happens, time passes, a concurrent request commits its own
    insert first, or the round trip fails and the statement is not
    executed. An empty [env] is a quiet one. *)
Inductive EnvAction : Type :=
| Quiet
| Elapse (dt : N)
| Commit (values : InsertWaitlistRegistration.t)
| Fault (e : Error).

Record Sys : Type := mkSys {
  db : Database;
  clock : Z;
  env : list EnvAction;
  queries : list Query;
  console : list (string * Error)
}.

Definition set_db (d : Database) (s : Sys) : Sys :=
  {| db := d; clock := clock s; env := env s; queries := queries s; console := console s |}.

Definition set_clock (t : Z) (s : Sys) : Sys :=
  {| db := db s; clock := t; env := env s; queries := queries s; console := console s |}.

Definition set_env (e : list EnvAction) (s : Sys) : Sys :=
  {| db := db s; clock := clock s; env := e; queries := queries s; console := console s |}.

Definition log_query (q : Query) (s : Sys) : Sys :=
  {| db := db s; clock := clock s; env := env s; queries := queries s ++ [q];
     console := console s |}.

Definition log_error (label : string) (e : Error) (s : Sys) : Sys :=
  {| db := db s; clock := clock s; env := env s; queries := queries s;
     console := console s ++ [(label, e)] |}.

(** The system after the migration: both tables empty. *)
Definition boot (now : Z) (e : list EnvAction) : Sys :=
  {| db := empty_database; clock := now; env := e; queries := []; console := [] |}.

(** A promise, run to completion. The state survives a [throw]. *)
Definition Async (A : Type) : Type := Sys -> Outcome A * Sys.

#[export] Instance Async_ret : MRet Async := fun A a s => (Return a, s).

#[export] Instance Async_bind : MBind Async := fun A B k m s =>
  match m s with
  | (Return a, s') => k a s'
  | (Throw e, s') => (Throw e, s')
  end.

Definition throw {A : Type} (e : Error) : Async A := fun s => (Throw e, s).

Definition try_catch {A : Type} (block : Async A) (handler : Error -> Async A) : Async A :=
  fun s =>
    match block s with
    | (Return a, s') => (Return a, s')
    | (Throw e, s') => handler e s'
    end.

Definition console_error (label : string) (e : Error) : Async unit :=
  fun s => (Return tt, log_error label e s).

(** The head of [env] takes effect. *)
Definition interfere (s : Sys) : option Error * Sys :=
  match env s with
  | [] => (None, s)
  | a :: rest =>
      let s := set_env rest s in
      match a with
      | Quiet => (None, s)
      | Elapse dt => (None, set_clock (clock s + Z.of_N dt) s)
      | Commit v => (None, set_db (snd (exec_insert_waitlist v (clock s) (db s))) s)
      | Fault e => (Some e, s)
      end
  end.

(** [await db. ...]: the statement is sent, the environment acts, and
    unless the round trip failed the database executes the statement. *)
Definition await {A : Type} (q : Query) (exec : Z -> Database -> Outcome A * Database)
  : Async A :=
  fun s =>
    match interfere (log_query q s) with
    | (Some e, s') => (Throw e, s')
    | (None, s') =>
        let (o, d) := exec (clock s') (db s') in
        (o, set_db d s')
    end.

(** ** server/storage.ts: [DatabaseStorage]

    [const [row] = await ...] binds the first row of the result, or
    [undefined] when there is none. *)

Definition getUser (id : string) : Async (option User.t) :=
  rows ← await (select_users_by_id id) (fun _ d => exec_select_users_by_id id d);
  mret (head rows).

Definition getUserByUsername (username : string) : Async (option User.t) :=
  rows ← await (select_users_by_username username)
           (fun _ d => exec_select_users_by_username username d);
  mret (head rows).

Definition createUser (insertUser : InsertUser.t) : Async (option User.t) :=
  rows ← await (insert_users insertUser) (fun _ d => exec_insert_users insertUser d);
  mret (head rows).

Definition getWaitlistRegistrationByEmail (email : string)
  : Async (option WaitlistRegistration.t) :=
  rows ← await (select_waitlist_by_email email)
           (fun _ d => exec_select_waitlist_by_email email d);
  mret (head rows).

Definition createWaitlistRegistration (insertRegistration : InsertWaitlistRegistration.t)
  : Async (option WaitlistRegistration.t) :=
  rows ← await (insert_waitlist insertRegistration)
           (fun now d => exec_insert_waitlist insertRegistration now d);
  mret (head rows).

(** [result[0]?.count || 0]: a missing row and a zero count both give 0. *)
Definition getWaitlistCount : Async Z :=
  result ← await select_count_waitlist
             (fun _ d => (Return (exec_select_count_waitlist d), d));
  mret (match head result with
        | None => 0
        | Some count => if Z.eqb count 0 then 0 else count
        end).

(** ** server/routes.ts: [registerRoutes] *)

Record Response : Type := mkResponse { status : Z; body : json }.

(** [res.status(code).json(payload)] *)
Definition res_status_json (code : Z) (payload : json) : Response :=
  {| status := code; body := payload |}.

(** [res.json(payload)]: the status stays at its default. *)
Definition res_json (payload : json) : Response :=
  {| status := 200; body := payload |}.

Definition validation_failed (issues : list ZodIssue) : Response :=
  res_status_json 400
    (JObj {[ "message" := JStr "Validation failed";
             "errors" := JArr (ZodIssue_json <$> issues) ]}).

Definition already_registered : Response :=
  res_status_json 409
    (JObj {[ "message" := JStr "This email is already registered for the waitlist" ]}).

Definition registration_json (registration : WaitlistRegistration.t) : json :=
  JObj {[ "id" := JStr (WaitlistRegistration.id registration);
          "firstName" := JStr (WaitlistRegistration.firstName registration);
          "lastName" := JStr (WaitlistRegistration.lastName registration);
          "email" := JStr (WaitlistRegistration.email registration) ]}.

Definition created (registration : WaitlistRegistration.t) : Response :=
  res_status_json 201
    (JObj {[ "message" := JStr "Successfully added to waitlist";
             "registration" := registration_json registration ]}).

Definition internal_server_error : Response :=
  res_status_json 500 (JObj {[ "message" := JStr "Internal server error" ]}).

(** The [try] block of [app.post("/api/waitlist", ...)]. Reading
    [registration.id] of an [undefined] registration is a [TypeError]. *)
Definition post_api_waitlist_try (req_body : json) : Async Response :=
  match insertWaitlistRegistrationSchema_safeParse req_body with
  | SafeParseError issues => mret (validation_failed issues)
  | SafeParseSuccess data =>
      let firstName := InsertWaitlistRegistration.firstName data in
      let lastName := InsertWaitlistRegistration.lastName data in
      let email := InsertWaitlistRegistration.email data in
      existingRegistration ← getWaitlistRegistrationByEmail email;
      match existingRegistration with
      | Some _ => mret already_registered
      | None =>
          registration ← createWaitlistRegistration
            {| InsertWaitlistRegistration.firstName := firstName;
               InsertWaitlistRegistration.lastName := lastName;
               InsertWaitlistRegistration.email := email |};
          match registration with
          | Some registration => mret (created registration)
          | None => throw (TypeError "Cannot read properties of undefined (reading 'id')")
          end
      end
  end.

(** [app.post("/api/waitlist", ...)] *)
Definition post_api_waitlist (req_body : json) : Async Response :=
  try_catch (post_api_waitlist_try req_body)
    (fun error =>
       _ ← console_error "Error creating waitlist registration:" error;
       mret internal_server_error).

(** [app.get("/api/waitlist/count", ...)] *)
Definition get_api_waitlist_count : Async Response :=
  try_catch
    (count ← getWaitlistCount;
     mret (res_json (JObj {[ "count" := JNum count ]})))
    (fun error =>
       _ ← console_error "Error getting waitlist count:" error;
       mret internal_server_error).

Inductive Request : Type :=
| POST_api_waitlist (req_body : json)
| GET_api_waitlist_count.

Definition registerRoutes (req : Request) : Async Response :=
  match req with
  | POST_api_waitlist req_body => post_api_waitlist req_body
  | GET_api_waitlist_count => get_api_waitlist_count
  end.

(** The states the system can be in: it boots with empty tables, serves
    requests one after the other, and the environment may at any time
    plan further interference. Requests served concurrently with the one
    at hand show up in the latter's [env]. *)
Inductive reachable : Sys -> Prop :=
| reachable_boot (now : Z) (e : list EnvAction) : reachable (boot now e)
| reachable_serve (s : Sys) (req : Request) :
    reachable s -> reachable (snd (registerRoutes req s))
| reachable_env (s : Sys) (e : list EnvAction) :
    reachable s -> reachable (set_env e s).

Definition email_registered (email : string) (s : Sys) : Prop :=
  exists r, In r (waitlistRegistrations (db s)) /\ WaitlistRegistration.email r = email.

Definition unique_emails (s : Sys) : Prop :=
  NoDup (WaitlistRegistration.email <$> waitlistRegistrations (db s)).

(** A body with the three fields as strings. *)
Definition payload (firstName lastName email : string) (fields : gmap string json) : Prop :=
  fields !! "firstName" = Some (JStr firstName) /\
  fields !! "lastName" = Some (JStr lastName) /\
  fields !! "email" = Some (JStr email).

Definition is_string (data : option json) : bool :=
  match data with
  | Some (JStr _) => true
  | _ => false
  end.

(** The payload of the worked example. *)
Definition ada_fields : gmap string json :=
  {[ "firstName" := JStr "Ada"; "lastName" := JStr "Lovelace";
     "email" := JStr "ada@example.com" ]}.

(** The system after [ada_fields] was submitted to a fresh one. *)
Definition ada_registered : Sys :=
  snd (post_api_waitlist (JObj ada_fields) (boot 0 [])).

(** Another person who gives the same email. *)
Definition grace_fields : gmap string json :=
  {[ "firstName" := JStr "Grace"; "lastName" := JStr "Hopper";
     "email" := JStr "ada@example.com" ]}.

(** A payload with an empty first name, and one whose email is not an
    email address. *)
Definition nameless_fields : gmap string json :=
  {[ "firstName" := JStr ""; "lastName" := JStr "Lovelace";
     "email" := JStr "ada@example.com" ]}.

Definition malformed_email_fields : gmap string json :=
  {[ "firstName" := JStr "Ada"; "lastName" := JStr "Lovelace";
     "email" := JStr "not-an-email" ]}.

(** A fresh system in which, while [ada_fields] is being handled, a
    concurrent request commits the same email between the lookup and the
    insert. *)
Definition racing : Sys :=
  boot 0 [Quiet; Commit (InsertWaitlistRegistration.mk "Grace" "Hopper" "ada@example.com")].

(** A lost connection, as the driver reports it. *)
Definition connection_lost : Error :=
  {| err_code := "ECONNRESET";
     err_message := "Connection terminated unexpectedly";
     err_constraint := None;
     err_stack := "at Connection.<anonymous> (node_modules/pg/lib/client.js)" |}.

(** ** Notions used in the statements *)

Local Open Scope list_scope.

(** The issues of an object are those of its three fields, in the order
    of the shape. *)
Definition field_issues (fields : gmap string json) : list ZodIssue :=
  issues_of (ZodString_parse ["firstName"] (fields !! "firstName")) ++
  issues_of (ZodString_parse ["lastName"] (fields !! "lastName")) ++
  issues_of (ZodString_parse ["email"] (fields !! "email")).

(** The row that an insert of [v] adds, with its column defaults. *)
Definition new_row (v : InsertWaitlistRegistration.t) (now : Z) (d : Database)
  : WaitlistRegistration.t :=
  {| WaitlistRegistration.id :=
       gen_random_uuid (WaitlistRegistration.id <$> waitlistRegistrations d);
     WaitlistRegistration.firstName := encode_utf8 (InsertWaitlistRegistration.firstName v);
     WaitlistRegistration.lastName := encode_utf8 (InsertWaitlistRegistration.lastName v);
     WaitlistRegistration.email := encode_utf8 (InsertWaitlistRegistration.email v);
     WaitlistRegistration.createdAt := now |}.

(** The values of an insert are text the database accepts. *)
Definition accepted_text (v : InsertWaitlistRegistration.t) : Prop :=
  has_NUL (InsertWaitlistRegistration.firstName v) = false /\
  has_NUL (InsertWaitlistRegistration.lastName v) = false /\
  has_NUL (InsertWaitlistRegistration.email v) = false.

(** The system after the insert of [v] went through. *)
Definition inserted (v : InsertWaitlistRegistration.t) (s : Sys) : Sys :=
  set_db
    {| users := users (db s);
       waitlistRegistrations :=
         waitlistRegistrations (db s) ++ [new_row v (clock s) (db s)] |}
    (log_query (insert_waitlist v) s).

(** ** What a handler can do to the system

    [db_evolves] and [evolves] collect what every step of the two routes
    maintains whatever the environment does: the [users] table stays as
    it is, registrations are only ever appended, emails stay unique if
    they were, and only statements on the registrations table are sent. *)

Definition on_waitlist (q : Query) : Prop := table_of q = waitlist_registrations_table.

Record db_evolves (d d' : Database) : Prop := mk_db_evolves {
  db_users : users d' = users d;
  db_rows : exists added, waitlistRegistrations d' = waitlistRegistrations d ++ added;
  db_unique :
    NoDup (WaitlistRegistration.email <$> waitlistRegistrations d) ->
    NoDup (WaitlistRegistration.email <$> waitlistRegistrations d')
}.

Record evolves (s s' : Sys) : Prop := mk_evolves {
  evolves_db : db_evolves (db s) (db s');
  evolves_queries : exists sent, queries s' = queries s ++ sent /\ Forall on_waitlist sent
}.

(** [m] maintains [evolves] from every state. *)
Definition preserves {A : Type} (m : Async A) : Prop := forall s, evolves s (snd (m s)).

(** ** The rest of the schema, of the storage class and of the form *)

(** [insertUserSchema.safeParse]: the [users] table with [username] and
    [password] picked, both [text(...).notNull()]. *)
Inductive SafeParseUserReturnType : Type :=
| SafeParseUserSuccess (data : InsertUser.t)
| SafeParseUserError (issues : list ZodIssue).

Definition insertUserSchema_safeParse (input : json) : SafeParseUserReturnType :=
  match input with
  | JObj fields =>
      let username := ZodString_parse ["username"] (fields !! "username") in
      let password := ZodString_parse ["password"] (fields !! "password") in
      match username, password with
      | inr u, inr p =>
          SafeParseUserSuccess {| InsertUser.username := u; InsertUser.password := p |}
      | _, _ => SafeParseUserError (issues_of username ++ issues_of password)
      end
  | _ => SafeParseUserError [invalid_type ZObject (getParsedType (Some input)) []]
  end.

Definition username_taken (username : string) (s : Sys) : Prop :=
  exists u, In u (users (db s)) /\ User.username u = username.

Definition user_id_known (id : string) (s : Sys) : Prop :=
  exists u, In u (users (db s)) /\ User.id u = id.

(** The row that an insert of [v] into [users] adds. *)
Definition new_user (v : InsertUser.t) (d : Database) : User.t :=
  {| User.id := gen_random_uuid (User.id <$> users d);
     User.username := encode_utf8 (InsertUser.username v);
     User.password := encode_utf8 (InsertUser.password v) |}.

(** A call of any of the six methods of [DatabaseStorage], the statement
    it sends, and the state it leaves. *)
Inductive StorageCall : Type :=
| call_getUser (id : string)
| call_getUserByUsername (username : string)
| call_createUser (insertUser : InsertUser.t)
| call_getWaitlistRegistrationByEmail (email : string)
| call_createWaitlistRegistration (insertRegistration : InsertWaitlistRegistration.t)
| call_getWaitlistCount.

Definition query_of (c : StorageCall) : Query :=
  match c with
  | call_getUser id => select_users_by_id id
  | call_getUserByUsername username => select_users_by_username username
  | call_createUser v => insert_users v
  | call_getWaitlistRegistrationByEmail email => select_waitlist_by_email email
  | call_createWaitlistRegistration v => insert_waitlist v
  | call_getWaitlistCount => select_count_waitlist
  end.

Definition after_call (c : StorageCall) (s : Sys) : Sys :=
  match c with
  | call_getUser id => snd (getUser id s)
  | call_getUserByUsername username => snd (getUserByUsername username s)
  | call_createUser v => snd (createUser v s)
  | call_getWaitlistRegistrationByEmail email => snd (getWaitlistRegistrationByEmail email s)
  | call_createWaitlistRegistration v => snd (createWaitlistRegistration v s)
  | call_getWaitlistCount => snd (getWaitlistCount s)
  end.

(** The states a system can be in whose database is used through the
    storage class and the routes, in any order and under any
    interference. *)
Inductive storage_reachable : Sys -> Prop :=
| storage_boot (now : Z) (e : list EnvAction) : storage_reachable (boot now e)
| storage_call (s : Sys) (c : StorageCall) :
    storage_reachable s -> storage_reachable (after_call c s)
| storage_serve (s : Sys) (req : Request) :
    storage_reachable s -> storage_reachable (snd (registerRoutes req s))
| storage_env (s : Sys) (e : list EnvAction) :
    storage_reachable s -> storage_reachable (set_env e s).

(** The primary keys and the two [unique()] columns. *)
Definition constraints_hold (d : Database) : Prop :=
  NoDup (User.id <$> users d) /\
  NoDup (User.username <$> users d) /\
  NoDup (WaitlistRegistration.id <$> waitlistRegistrations d) /\
  NoDup (WaitlistRegistration.email <$> waitlistRegistrations d).

(** [m] keeps the property [I] of the system. *)
Definition maintains {A : Type} (I : Sys -> Prop) (m : Async A) : Prop :=
  forall s, I s -> I (snd (m s)).

(** *** The form of the page: [waitlistSchema]

    The shared schema, extended with [min(1, ...)] on the two names and
    [email(...)] on the email. A string that fails a check gets the issue
    of that check; all checks of a string are run. The pattern zod tests
    an email against is not part of this repository and is a parameter.
    [min(1)] only asks whether the string is empty. *)

Inductive ZodStringCheck : Type :=
| check_min (value : nat) (message : string)
| check_email (message : string).

Inductive ZodFormIssue : Type :=
| issue_invalid_type (issue : ZodIssue)
| issue_too_small (minimum : nat) (at_path : list string) (message : string)
| issue_invalid_string (validation : string) (at_path : list string) (message : string).

Definition form_issue_message (i : ZodFormIssue) : string :=
  match i with
  | issue_invalid_type issue => message issue
  | issue_too_small _ _ msg => msg
  | issue_invalid_string _ _ msg => msg
  end.

Definition form_issue_path (i : ZodFormIssue) : list string :=
  match i with
  | issue_invalid_type issue => path issue
  | issue_too_small _ p _ => p
  | issue_invalid_string _ p _ => p
  end.

Section ClientForm.

Variable emailRegex_test : string -> bool.

Definition ZodString_run_check (at_path : list string) (input : string)
    (check : ZodStringCheck) : list ZodFormIssue :=
  match check with
  | check_min value msg =>
      if Nat.ltb (String.length input) value
      then [issue_too_small value at_path msg]
      else []
  | check_email msg =>
      if emailRegex_test input
      then []
      else [issue_invalid_string "email" at_path msg]
  end.

Definition ZodString_checked_parse (checks : list ZodStringCheck) (at_path : list string)
    (data : option json) : list ZodFormIssue + string :=
  match data with
  | Some (JStr input) =>
      match concat (List.map (ZodString_run_check at_path input) checks) with
      | [] => inr input
      | issues => inl issues
      end
  | _ => inl [issue_invalid_type (invalid_type ZString (getParsedType data) at_path)]
  end.

Definition form_issues_of (r : list ZodFormIssue + string) : list ZodFormIssue :=
  match r with
  | inl issues => issues
  | inr _ => []
  end.

Inductive FormParseReturnType : Type :=
| FormParseSuccess (data : InsertWaitlistRegistration.t)
| FormParseError (issues : list ZodFormIssue).

Definition waitlistSchema_safeParse (input : json) : FormParseReturnType :=
  match input with
  | JObj fields =>
      let firstName :=
        ZodString_checked_parse [check_min 1 "First name is required"]
          ["firstName"] (fields !! "firstName") in
      let lastName :=
        ZodString_checked_parse [check_min 1 "Last name is required"]
          ["lastName"] (fields !! "lastName") in
      let email :=
        ZodString_checked_parse [check_email "Please enter a valid email address"]
          ["email"] (fields !! "email") in
      match firstName, lastName, email with
      | inr f, inr l, inr e =>
          FormParseSuccess
            {| InsertWaitlistRegistration.firstName := f;
               InsertWaitlistRegistration.lastName := l;
               InsertWaitlistRegistration.email := e |}
      | _, _, _ =>
          FormParseError
            (form_issues_of firstName ++ form_issues_of lastName ++ form_issues_of email)
      end
  | _ =>
      FormParseError
        [issue_invalid_type (invalid_type ZObject (getParsedType (Some input)) [])]
  end.

End ClientForm.

(** A user to sign up with, and a stand-in for the email pattern: there
    has to be an [@] in the string. *)
Definition alan : InsertUser.t :=
  {| InsertUser.username := "alan"; InsertUser.password := "enigma" |}.

Fixpoint has_at (s : string) : bool :=
  match s with
  | EmptyString => false
  | String c rest => if Ascii.eqb c "@"%char then true else has_at rest
  end.

(** * Properties *)

(** ** The schema *)

Lemma safeParse_payload (fields : gmap string json) (fn ln em : string) :
  payload fn ln em fields ->
  insertWaitlistRegistrationSchema_safeParse (JObj fields) =
    SafeParseSuccess (InsertWaitlistRegistration.mk fn ln em).
Proof.
  intros (Hf & Hl & He). unfold insertWaitlistRegistrationSchema_safeParse.
  rewrite Hf, Hl, He. reflexivity.
Qed.

Lemma safeParse_success_inv (input : json) (data : InsertWaitlistRegistration.t) :
  insertWaitlistRegistrationSchema_safeParse input = SafeParseSuccess data ->
  exists fields,
    input = JObj fields /\
    payload (InsertWaitlistRegistration.firstName data)
      (InsertWaitlistRegistration.lastName data)
      (InsertWaitlistRegistration.email data) fields.
Proof.
  destruct input as [| | | | |fields]; simpl; try discriminate.
  intros H. exists fields. split; [reflexivity|]. unfold payload.
  destruct (fields !! "firstName") as [[]|], (fields !! "lastName") as [[]|],
    (fields !! "email") as [[]|]; simpl in H; try discriminate.
  injection H as <-. auto.
Qed.

Lemma ZodString_parse_issues (p : list string) (data : option json) :
  issues_of (ZodString_parse p data) =
    if is_string data then [] else [invalid_type ZString (getParsedType data) p].
Proof. destruct data as [[]|]; reflexivity. Qed.

Lemma safeParse_not_strings (fields : gmap string json) :
  is_string (fields !! "firstName") && is_string (fields !! "lastName") &&
    is_string (fields !! "email") = false ->
  insertWaitlistRegistrationSchema_safeParse (JObj fields) =
    SafeParseError (field_issues fields).
Proof.
  unfold insertWaitlistRegistrationSchema_safeParse, field_issues.
  destruct (fields !! "firstName") as [[]|], (fields !! "lastName") as [[]|],
    (fields !! "email") as [[]|]; simpl; intros H; try discriminate; reflexivity.
Qed.

(** ** The statements *)

Lemma existsb_eqb_false {A : Type} (f : A -> string) (x : string) (l : list A) :
  existsb (fun r => String.eqb (f r) x) l = false <-> ~ In x (f <$> l).
Proof.
  induction l as [|a l IH]; simpl.
  - tauto.
  - rewrite orb_false_iff, IH, String.eqb_neq. tauto.
Qed.

Lemma In_fmap_email (em : string) (rows : list WaitlistRegistration.t) :
  In em (WaitlistRegistration.email <$> rows) <->
  exists r, In r rows /\ WaitlistRegistration.email r = em.
Proof.
  rewrite <- list_elem_of_In, list_elem_of_fmap.
  split; intros (r & H1 & H2); exists r; rewrite list_elem_of_In in *; auto.
Qed.

(** A generated identifier is never a key already. *)
Lemma gen_random_uuid_fresh {A : Type} (f : A -> string) (l : list A) :
  existsb (fun r => String.eqb (f r) (gen_random_uuid (f <$> l))) l = false.
Proof.
  apply existsb_eqb_false. rewrite <- list_elem_of_In.
  unfold gen_random_uuid. apply infinite_is_fresh.
Qed.

Lemma exec_insert_waitlist_eq (v : InsertWaitlistRegistration.t) (now : Z) (d : Database) :
  exec_insert_waitlist v now d =
    if has_NUL (InsertWaitlistRegistration.firstName v) ||
       has_NUL (InsertWaitlistRegistration.lastName v) ||
       has_NUL (InsertWaitlistRegistration.email v)
    then (Throw invalid_byte_sequence, d)
    else if existsb (fun r => String.eqb (WaitlistRegistration.email r)
                                (encode_utf8 (InsertWaitlistRegistration.email v)))
              (waitlistRegistrations d)
    then (Throw (unique_violation "waitlist_registrations_email_unique"), d)
    else if negb (Nat.leb (index_row_size (encode_utf8 (InsertWaitlistRegistration.email v)))
                    BTMaxItemSize)
    then (Throw (index_row_too_large (encode_utf8 (InsertWaitlistRegistration.email v))
                   "waitlist_registrations_email_unique"), d)
    else (Return [new_row v now d],
          {| users := users d;
             waitlistRegistrations := waitlistRegistrations d ++ [new_row v now d] |}).
Proof.
  unfold exec_insert_waitlist. destruct (_ || _); [reflexivity|]. cbv zeta. simpl.
  rewrite (gen_random_uuid_fresh WaitlistRegistration.id). reflexivity.
Qed.

(** An insert either leaves the database as it is, or appends the new
    row, whose email was not in the table. *)
Lemma exec_insert_waitlist_cases (v : InsertWaitlistRegistration.t) (now : Z)
    (d : Database) :
  (snd (exec_insert_waitlist v now d) = d /\
   exists e, fst (exec_insert_waitlist v now d) = Throw e) \/
  (exec_insert_waitlist v now d =
     (Return [new_row v now d],
      {| users := users d;
         waitlistRegistrations := waitlistRegistrations d ++ [new_row v now d] |}) /\
   accepted_text v /\
   ~ In (encode_utf8 (InsertWaitlistRegistration.email v))
        (WaitlistRegistration.email <$> waitlistRegistrations d)).
Proof.
  rewrite exec_insert_waitlist_eq.
  destruct (has_NUL (InsertWaitlistRegistration.firstName v)) eqn:E1;
    [left; simpl; eauto|].
  destruct (has_NUL (InsertWaitlistRegistration.lastName v)) eqn:E2;
    [left; simpl; eauto|].
  destruct (has_NUL (InsertWaitlistRegistration.email v)) eqn:E3;
    [left; simpl; eauto|].
  simpl. destruct (existsb _ _) eqn:E; [left; simpl; eauto|].
  destruct (negb _); [left; simpl; eauto|].
  right. split; [reflexivity|]. split; [repeat split; assumption|].
  apply existsb_eqb_false in E. exact E.
Qed.

Lemma exec_insert_waitlist_accepts (v : InsertWaitlistRegistration.t) (now : Z)
    (d : Database) :
  accepted_text v ->
  indexable (encode_utf8 (InsertWaitlistRegistration.email v)) ->
  ~ In (encode_utf8 (InsertWaitlistRegistration.email v))
       (WaitlistRegistration.email <$> waitlistRegistrations d) ->
  exec_insert_waitlist v now d =
    (Return [new_row v now d],
     {| users := users d;
        waitlistRegistrations := waitlistRegistrations d ++ [new_row v now d] |}).
Proof.
  intros (H1 & H2 & H3) Hfit Hfresh. rewrite exec_insert_waitlist_eq.
  rewrite H1, H2, H3. simpl.
  apply existsb_eqb_false in Hfresh. rewrite Hfresh.
  apply Nat.leb_le in Hfit. rewrite Hfit. reflexivity.
Qed.

Lemma filter_eqb_absent {A : Type} (f : A -> string) (x : string) (l : list A) :
  ~ In x (f <$> l) -> List.filter (fun r => String.eqb (f r) x) l = [].
Proof.
  induction l as [|a l IH]; simpl; [reflexivity|]. intros H.
  destruct (String.eqb_spec (f a) x) as [E|E]; [tauto|]. apply IH. tauto.
Qed.

Lemma head_filter_eqb {A : Type} (f : A -> string) (x : string) (l : list A) :
  (head (List.filter (fun r => String.eqb (f r) x) l) = None <-> ~ In x (f <$> l)) /\
  (forall a, head (List.filter (fun r => String.eqb (f r) x) l) = Some a ->
             In a l /\ f a = x).
Proof.
  induction l as [|b l [IH1 IH2]]; simpl.
  - split; [tauto | discriminate].
  - destruct (String.eqb_spec (f b) x) as [E|E]; simpl.
    + split; [split; [discriminate | tauto]|]. intros a [= <-]. auto.
    + split; [rewrite IH1; tauto|]. intros a Ha. destruct (IH2 a Ha). auto.
Qed.

Lemma head_filter_present {A : Type} (f : A -> string) (x : string) (l : list A) :
  In x (f <$> l) ->
  exists a, head (List.filter (fun r => String.eqb (f r) x) l) = Some a /\
            In a l /\ f a = x.
Proof.
  intros Hin. destruct (head_filter_eqb f x l) as [Hnone Hsome].
  destruct (head (List.filter _ l)) as [a|] eqn:E.
  - exists a. split; [reflexivity|]. now apply Hsome.
  - destruct (proj1 Hnone eq_refl Hin).
Qed.

Lemma exec_select_waitlist_eq (em : string) (d : Database) :
  has_NUL em = false ->
  exec_select_waitlist_by_email em d =
    (Return (List.filter
               (fun r => String.eqb (WaitlistRegistration.email r) (encode_utf8 em))
               (waitlistRegistrations d)), d).
Proof. intros H. unfold exec_select_waitlist_by_email. rewrite H. reflexivity. Qed.

Lemma exec_select_waitlist_snd (em : string) (d : Database) :
  snd (exec_select_waitlist_by_email em d) = d.
Proof. unfold exec_select_waitlist_by_email. destruct (has_NUL em); reflexivity. Qed.

Lemma exec_select_users_by_id_snd (id : string) (d : Database) :
  snd (exec_select_users_by_id id d) = d.
Proof. unfold exec_select_users_by_id. destruct (has_NUL id); reflexivity. Qed.

Lemma exec_select_users_by_username_snd (username : string) (d : Database) :
  snd (exec_select_users_by_username username d) = d.
Proof. unfold exec_select_users_by_username. destruct (has_NUL username); reflexivity. Qed.

(** ** What a handler can do to the system *)

Lemma db_evolves_refl (d : Database) : db_evolves d d.
Proof.
  split; [reflexivity | | tauto]. exists []. now rewrite app_nil_r.
Qed.

Lemma db_evolves_trans (d1 d2 d3 : Database) :
  db_evolves d1 d2 -> db_evolves d2 d3 -> db_evolves d1 d3.
Proof.
  intros [U1 [a1 R1] N1] [U2 [a2 R2] N2]. split.
  - congruence.
  - exists (a1 ++ a2). rewrite R2, R1. now rewrite <- app_assoc.
  - auto.
Qed.

Lemma evolves_refl (s : Sys) : evolves s s.
Proof.
  split; [apply db_evolves_refl|]. exists []. split; [now rewrite app_nil_r | constructor].
Qed.

Lemma evolves_trans (s1 s2 s3 : Sys) : evolves s1 s2 -> evolves s2 s3 -> evolves s1 s3.
Proof.
  intros [D1 (q1 & Q1 & F1)] [D2 (q2 & Q2 & F2)]. split.
  - eapply db_evolves_trans; eassumption.
  - exists (q1 ++ q2). split.
    + rewrite Q2, Q1. now rewrite <- app_assoc.
    + apply Forall_app. auto.
Qed.

Lemma exec_insert_waitlist_evolves (v : InsertWaitlistRegistration.t) (now : Z)
    (d : Database) :
  db_evolves d (snd (exec_insert_waitlist v now d)).
Proof.
  destruct (exec_insert_waitlist_cases v now d) as [[-> _]|(-> & _ & E)].
  - apply db_evolves_refl.
  - split; simpl.
    + reflexivity.
    + eexists. reflexivity.
    + intros ND. rewrite fmap_app. apply NoDup_app. split; [exact ND|]. split.
      * intros x Hx Hx'. apply list_elem_of_In in Hx'. simpl in Hx'.
        destruct Hx' as [Hx'|[]]. subst x. apply E. now apply list_elem_of_In.
      * apply NoDup_singleton.
Qed.

Lemma interfere_evolves (s : Sys) : evolves s (snd (interfere s)).
Proof.
  unfold interfere. destruct (env s) as [|[|dt|v|e] rest]; simpl;
    try (split; [apply db_evolves_refl | exists []; split;
                 [now rewrite app_nil_r | constructor]]).
  split; simpl; [apply exec_insert_waitlist_evolves|].
  exists []. split; [now rewrite app_nil_r | constructor].
Qed.

Lemma preserves_ret {A : Type} (a : A) : preserves (mret a).
Proof. intros s. apply evolves_refl. Qed.

Lemma preserves_throw {A : Type} (e : Error) : preserves (throw (A:=A) e).
Proof. intros s. apply evolves_refl. Qed.

Lemma preserves_bind {A B : Type} (m : Async A) (k : A -> Async B) :
  preserves m -> (forall a, preserves (k a)) -> preserves (m ≫= k).
Proof.
  intros Hm Hk s. unfold mbind, Async_bind. specialize (Hm s).
  destruct (m s) as [[a|e] s']; simpl in *; [|exact Hm].
  eapply evolves_trans; [exact Hm | apply Hk].
Qed.

Lemma preserves_try_catch {A : Type} (block : Async A) (handler : Error -> Async A) :
  preserves block -> (forall e, preserves (handler e)) -> preserves (try_catch block handler).
Proof.
  intros Hb Hh s. unfold try_catch. specialize (Hb s).
  destruct (block s) as [[a|e] s']; simpl in *; [exact Hb|].
  eapply evolves_trans; [exact Hb | apply Hh].
Qed.

Lemma preserves_console_error (label : string) (e : Error) :
  preserves (console_error label e).
Proof.
  intros s. split; simpl; [apply db_evolves_refl|].
  exists []. split; [now rewrite app_nil_r | constructor].
Qed.

Lemma preserves_await {A : Type} (q : Query)
    (exec : Z -> Database -> Outcome A * Database) :
  on_waitlist q ->
  (forall now d, db_evolves d (snd (exec now d))) ->
  preserves (await q exec).
Proof.
  intros Hq Hexec s. unfold await.
  assert (H0 : evolves s (log_query q s)).
  { split; simpl; [apply db_evolves_refl|]. exists [q]. split; [reflexivity|].
    constructor; [exact Hq | constructor]. }
  pose proof (interfere_evolves (log_query q s)) as H1.
  destruct (interfere (log_query q s)) as [[e|] s1]; simpl in *.
  - eapply evolves_trans; eassumption.
  - specialize (Hexec (clock s1) (db s1)).
    destruct (exec (clock s1) (db s1)) as [o d]; simpl in *.
    eapply evolves_trans; [exact H0|]. eapply evolves_trans; [exact H1|].
    split; simpl; [exact Hexec|]. exists []. split; [now rewrite app_nil_r | constructor].
Qed.

Lemma preserves_getWaitlistRegistrationByEmail (em : string) :
  preserves (getWaitlistRegistrationByEmail em).
Proof.
  apply preserves_bind; [|intros; apply preserves_ret].
  apply preserves_await; [reflexivity|].
  intros; rewrite exec_select_waitlist_snd; apply db_evolves_refl.
Qed.

Lemma preserves_createWaitlistRegistration (v : InsertWaitlistRegistration.t) :
  preserves (createWaitlistRegistration v).
Proof.
  apply preserves_bind; [|intros; apply preserves_ret].
  apply preserves_await; [reflexivity|]. intros; apply exec_insert_waitlist_evolves.
Qed.

Lemma preserves_getWaitlistCount : preserves getWaitlistCount.
Proof.
  apply preserves_bind; [|intros; apply preserves_ret].
  apply preserves_await; [reflexivity|]. intros; apply db_evolves_refl.
Qed.

Lemma preserves_post_api_waitlist (req_body : json) :
  preserves (post_api_waitlist req_body).
Proof.
  apply preserves_try_catch.
  - unfold post_api_waitlist_try.
    destruct (insertWaitlistRegistrationSchema_safeParse req_body) as [data|issues];
      [|apply preserves_ret].
    apply preserves_bind; [apply preserves_getWaitlistRegistrationByEmail|].
    intros [existing|]; [apply preserves_ret|].
    apply preserves_bind; [apply preserves_createWaitlistRegistration|].
    intros [registration|]; [apply preserves_ret | apply preserves_throw].
  - intros e. apply preserves_bind; [apply preserves_console_error|].
    intros; apply preserves_ret.
Qed.

Lemma preserves_get_api_waitlist_count : preserves get_api_waitlist_count.
Proof.
  apply preserves_try_catch.
  - apply preserves_bind; [apply preserves_getWaitlistCount|]. intros; apply preserves_ret.
  - intros e. apply preserves_bind; [apply preserves_console_error|].
    intros; apply preserves_ret.
Qed.

Lemma preserves_registerRoutes (req : Request) : preserves (registerRoutes req).
Proof.
  destruct req; [apply preserves_post_api_waitlist | apply preserves_get_api_waitlist_count].
Qed.

Lemma reachable_unique_emails (s : Sys) : reachable s -> unique_emails s.
Proof.
  induction 1 as [now e|s req _ IH|s e _ IH].
  - apply NoDup_nil_2.
  - apply (db_unique _ _ (evolves_db _ _ (preserves_registerRoutes req s))), IH.
  - exact IH.
Qed.

(** ** The storage methods, one round trip each *)

Lemma await_quiet {A : Type} (q : Query) (exec : Z -> Database -> Outcome A * Database)
    (s : Sys) :
  env s = [] ->
  await q exec s =
    (fst (exec (clock s) (db s)), set_db (snd (exec (clock s) (db s))) (log_query q s)).
Proof.
  intros He. unfold await, interfere. simpl. rewrite He.
  destruct (exec (clock (log_query q s)) (db (log_query q s))) as [o d] eqn:E.
  simpl in E. rewrite E. reflexivity.
Qed.

Lemma getWaitlistRegistrationByEmail_quiet (em : string) (s : Sys) :
  env s = [] ->
  has_NUL em = false ->
  getWaitlistRegistrationByEmail em s =
    (Return (head (List.filter
                     (fun r => String.eqb (WaitlistRegistration.email r) (encode_utf8 em))
                     (waitlistRegistrations (db s)))),
     log_query (select_waitlist_by_email em) s).
Proof.
  intros He Hem. unfold getWaitlistRegistrationByEmail, mbind, Async_bind.
  rewrite await_quiet by exact He. rewrite exec_select_waitlist_eq by exact Hem.
  reflexivity.
Qed.

Lemma createWaitlistRegistration_quiet (v : InsertWaitlistRegistration.t) (s : Sys) :
  env s = [] ->
  accepted_text v ->
  indexable (encode_utf8 (InsertWaitlistRegistration.email v)) ->
  ~ email_registered (encode_utf8 (InsertWaitlistRegistration.email v)) s ->
  createWaitlistRegistration v s = (Return (Some (new_row v (clock s) (db s))), inserted v s).
Proof.
  intros He Htext Hfit Hfresh. unfold createWaitlistRegistration, mbind, Async_bind.
  rewrite await_quiet by exact He.
  unfold email_registered in Hfresh. rewrite <- In_fmap_email in Hfresh.
  rewrite (exec_insert_waitlist_accepts v _ _ Htext Hfit Hfresh). reflexivity.
Qed.

Lemma count_or_zero (n : nat) :
  (if Z.eqb (Z.of_nat n) 0 then 0 else Z.of_nat n) = Z.of_nat n.
Proof. destruct (Z.eqb_spec (Z.of_nat n) 0) as [E|E]; [now rewrite E | reflexivity]. Qed.

Lemma getWaitlistCount_quiet (s : Sys) :
  env s = [] ->
  getWaitlistCount s =
    (Return (Z.of_nat (length (waitlistRegistrations (db s)))),
     log_query select_count_waitlist s).
Proof.
  intros He. unfold getWaitlistCount, mbind, Async_bind.
  rewrite await_quiet by exact He. simpl. rewrite count_or_zero. reflexivity.
Qed.

(** Whatever the environment, a count that is returned is the number of
    rows at that moment. *)
Lemma getWaitlistCount_returns (s s' : Sys) (n : Z) :
  getWaitlistCount s = (Return n, s') ->
  n = Z.of_nat (length (waitlistRegistrations (db s'))).
Proof.
  unfold getWaitlistCount, mbind, Async_bind, await.
  destruct (interfere (log_query select_count_waitlist s)) as [[e|] s1]; [discriminate|].
  simpl. rewrite count_or_zero. intros H. injection H as <- <-. reflexivity.
Qed.

(** A registration that is returned is the last row of the table and
    carries the values it was created from. *)
Lemma createWaitlistRegistration_returns (v : InsertWaitlistRegistration.t) (s s' : Sys)
    (registration : option WaitlistRegistration.t) :
  createWaitlistRegistration v s = (Return registration, s') ->
  exists row rows,
    registration = Some row /\
    waitlistRegistrations (db s') = rows ++ [row] /\
    WaitlistRegistration.firstName row =
      encode_utf8 (InsertWaitlistRegistration.firstName v) /\
    WaitlistRegistration.lastName row =
      encode_utf8 (InsertWaitlistRegistration.lastName v) /\
    WaitlistRegistration.email row = encode_utf8 (InsertWaitlistRegistration.email v).
Proof.
  unfold createWaitlistRegistration, mbind, Async_bind, await.
  destruct (interfere (log_query (insert_waitlist v) s)) as [[e|] s1]; [discriminate|].
  destruct (exec_insert_waitlist_cases v (clock s1) (db s1)) as [[_ [e He]]|(Hex & _)].
  - destruct (exec_insert_waitlist v (clock s1) (db s1)) as [o d]. simpl in He. subst o.
    discriminate.
  - rewrite Hex. simpl. intros H. injection H as <- <-.
    exists (new_row v (clock s1) (db s1)), (waitlistRegistrations (db s1)). auto.
Qed.

(** ** The signup handler, by cases on what the storage calls do *)

Lemma post_api_waitlist_invalid (req_body : json) (issues : list ZodIssue) (s : Sys) :
  insertWaitlistRegistrationSchema_safeParse req_body = SafeParseError issues ->
  post_api_waitlist req_body s = (Return (validation_failed issues), s).
Proof.
  intros H. unfold post_api_waitlist, try_catch, post_api_waitlist_try. rewrite H.
  reflexivity.
Qed.

Lemma post_api_waitlist_cases (req_body : json) (data : InsertWaitlistRegistration.t)
    (s : Sys) :
  insertWaitlistRegistrationSchema_safeParse req_body = SafeParseSuccess data ->
  post_api_waitlist req_body s =
    match getWaitlistRegistrationByEmail (InsertWaitlistRegistration.email data) s with
    | (Throw e, s1) => (Return internal_server_error, log_error "Error creating waitlist registration:" e s1)
    | (Return (Some _), s1) => (Return already_registered, s1)
    | (Return None, s1) =>
        match createWaitlistRegistration data s1 with
        | (Throw e, s2) => (Return internal_server_error, log_error "Error creating waitlist registration:" e s2)
        | (Return (Some registration), s2) => (Return (created registration), s2)
        | (Return None, s2) =>
            (Return internal_server_error,
             log_error "Error creating waitlist registration:"
               (TypeError "Cannot read properties of undefined (reading 'id')") s2)
        end
    end.
Proof.
  intros H. unfold post_api_waitlist, try_catch, post_api_waitlist_try. rewrite H.
  unfold mbind at 1. unfold Async_bind at 1.
  destruct (getWaitlistRegistrationByEmail _ s) as [[[existing|]|e] s1]; try reflexivity.
  unfold mbind at 1. unfold Async_bind at 1. destruct data as [fn ln em]. simpl.
  destruct (createWaitlistRegistration _ s1) as [[[registration|]|e] s2]; reflexivity.
Qed.

Lemma post_api_waitlist_fresh (fields : gmap string json) (fn ln em : string) (s : Sys) :
  env s = [] ->
  payload fn ln em fields ->
  accepted_text (InsertWaitlistRegistration.mk fn ln em) ->
  indexable (encode_utf8 em) ->
  ~ email_registered (encode_utf8 em) s ->
  let data := InsertWaitlistRegistration.mk fn ln em in
  let s1 := log_query (select_waitlist_by_email em) s in
  post_api_waitlist (JObj fields) s =
    (Return (created (new_row data (clock s) (db s))), inserted data s1).
Proof.
  intros He Hp Htext Hfit Hfresh data s1.
  rewrite (post_api_waitlist_cases _ data) by (apply safeParse_payload; exact Hp).
  simpl. rewrite getWaitlistRegistrationByEmail_quiet by (exact He || apply Htext).
  rewrite filter_eqb_absent by (rewrite In_fmap_email; exact Hfresh).
  simpl. fold s1.
  rewrite createWaitlistRegistration_quiet;
    [reflexivity | exact He | exact Htext | exact Hfit | exact Hfresh].
Qed.

Lemma post_api_waitlist_registered (fields : gmap string json) (fn ln em : string)
    (s : Sys) :
  env s = [] ->
  payload fn ln em fields ->
  has_NUL em = false ->
  email_registered (encode_utf8 em) s ->
  post_api_waitlist (JObj fields) s =
    (Return already_registered, log_query (select_waitlist_by_email em) s).
Proof.
  intros He Hp Hem Hreg.
  rewrite (post_api_waitlist_cases _ (InsertWaitlistRegistration.mk fn ln em))
    by (apply safeParse_payload; exact Hp).
  simpl. rewrite getWaitlistRegistrationByEmail_quiet by assumption.
  apply In_fmap_email in Hreg.
  destruct (head_filter_present WaitlistRegistration.email _ _ Hreg) as (r & -> & _).
  reflexivity.
Qed.

Lemma get_api_waitlist_count_returns (s s' : Sys) (n : Z) :
  getWaitlistCount s = (Return n, s') ->
  get_api_waitlist_count s = (Return (res_json (JObj {[ "count" := JNum n ]})), s').
Proof.
  intros H. unfold get_api_waitlist_count, try_catch, mbind at 1, Async_bind at 1.
  rewrite H. reflexivity.
Qed.

(** ** A registered email, whatever the environment does *)

Lemma interfere_queries (s : Sys) : queries (snd (interfere s)) = queries s.
Proof. unfold interfere. destruct (env s) as [|[|dt|v|e] rest]; reflexivity. Qed.

Lemma evolves_registered (em : string) (s s' : Sys) :
  evolves s s' -> email_registered em s -> email_registered em s'.
Proof.
  intros [[_ [added Hrows] _] _] (r & Hin & Hem). exists r. split; [|exact Hem].
  rewrite Hrows. apply in_or_app. now left.
Qed.

Lemma getWaitlistRegistrationByEmail_registered (em : string) (s : Sys) :
  email_registered (encode_utf8 em) s ->
  queries (snd (getWaitlistRegistrationByEmail em s)) =
    queries s ++ [select_waitlist_by_email em] /\
  fst (getWaitlistRegistrationByEmail em s) <> Return None.
Proof.
  intros Hreg. unfold getWaitlistRegistrationByEmail, mbind, Async_bind, await.
  pose proof (interfere_queries (log_query (select_waitlist_by_email em) s)) as Hq.
  pose proof (interfere_evolves (log_query (select_waitlist_by_email em) s)) as Hev.
  destruct (interfere (log_query (select_waitlist_by_email em) s)) as [[e|] s1];
    simpl in *.
  - split; [exact Hq | discriminate].
  - assert (Hreg1 : email_registered (encode_utf8 em) s1)
      by (eapply evolves_registered; eauto).
    apply In_fmap_email in Hreg1.
    unfold exec_select_waitlist_by_email. destruct (has_NUL em); simpl.
    + split; [exact Hq | discriminate].
    + split; [exact Hq|].
      destruct (head_filter_present WaitlistRegistration.email _ _ Hreg1) as (r & -> & _).
      discriminate.
Qed.

Lemma post_api_waitlist_registered_any (fields : gmap string json) (fn ln em : string)
    (s : Sys) :
  payload fn ln em fields ->
  email_registered (encode_utf8 em) s ->
  (fst (post_api_waitlist (JObj fields) s) = Return already_registered \/
   fst (post_api_waitlist (JObj fields) s) = Return internal_server_error) /\
  queries (snd (post_api_waitlist (JObj fields) s)) =
    queries s ++ [select_waitlist_by_email em].
Proof.
  intros Hp Hreg.
  rewrite (post_api_waitlist_cases _ (InsertWaitlistRegistration.mk fn ln em))
    by (apply safeParse_payload, Hp).
  simpl. destruct (getWaitlistRegistrationByEmail_registered em s Hreg) as [Hq Hne].
  destruct (getWaitlistRegistrationByEmail em s) as [[[existing|]|e] s1]; simpl in *.
  - auto.
  - now destruct Hne.
  - auto.
Qed.

(** After a 201 the email of the payload is in the table. *)
Lemma post_api_waitlist_created_registered (fields : gmap string json) (fn ln em : string)
    (s s' : Sys) (r : Response) :
  payload fn ln em fields ->
  post_api_waitlist (JObj fields) s = (Return r, s') ->
  status r = 201 ->
  email_registered (encode_utf8 em) s'.
Proof.
  intros Hp Hrun Hstatus.
  rewrite (post_api_waitlist_cases _ (InsertWaitlistRegistration.mk fn ln em))
    in Hrun by (apply safeParse_payload, Hp).
  simpl in Hrun.
  destruct (getWaitlistRegistrationByEmail em s) as [[[existing|]|e] s1];
    try (injection Hrun as <- <-; discriminate Hstatus).
  destruct (createWaitlistRegistration _ s1) as [[registration|e] s2] eqn:Ecreate.
  2:{ injection Hrun as <- <-. discriminate Hstatus. }
  destruct (createWaitlistRegistration_returns _ s1 s2 registration Ecreate)
    as (row & rows & -> & Hrows & _ & _ & Hem).
  injection Hrun as <- <-. exists row. split; [|exact Hem].
  rewrite Hrows. apply in_or_app. right. now left.
Qed.

(** * The claims *)

Lemma not_registered_at_boot (em : string) (now : Z) (e : list EnvAction) :
  ~ email_registered em (boot now e).
Proof. intros (r & [] & _). Qed.

Lemma ada_payload : payload "Ada" "Lovelace" "ada@example.com" ada_fields.
Proof. repeat split; vm_compute; reflexivity. Qed.

(** C1. In every reachable state no two registrations share an email.
    In particular, a payload of strings that the database stores as they
    are, with a new email, that is submitted twice in a row is answered
    with created and then with conflict, and the table then holds exactly
    one row with that email. Whatever the payload and whatever the
    environment does during the two submissions, they are never both
    answered with created. *)
Theorem one_registration_per_email (s : Sys) :
  reachable s ->
  unique_emails s /\
  (forall (fields : gmap string json) (fn ln em : string),
     payload fn ln em fields ->
     stored_verbatim fn -> stored_verbatim ln -> stored_verbatim em -> indexable em ->
     ~ email_registered em s ->
     let first := post_api_waitlist (JObj fields) (set_env [] s) in
     let second := post_api_waitlist (JObj fields) (snd first) in
     (exists r1 row,
        fst first = Return r1 /\ status r1 = 201 /\
        last (waitlistRegistrations (db (snd first))) = Some row /\
        WaitlistRegistration.email row = em) /\
     (exists r2,
        fst second = Return r2 /\ status r2 = 409 /\
        body r2 =
          JObj {[ "message" :=
                    JStr "This email is already registered for the waitlist" ]}) /\
     unique_emails (snd second) /\
     length (List.filter (fun r => String.eqb (WaitlistRegistration.email r) em)
               (waitlistRegistrations (db (snd second)))) = 1%nat) /\
  (forall (fields : gmap string json) (fn ln em : string) (e1 e2 : list EnvAction)
          (r1 r2 : Response),
     payload fn ln em fields ->
     let first := post_api_waitlist (JObj fields) (set_env e1 s) in
     let second := post_api_waitlist (JObj fields) (set_env e2 (snd first)) in
     fst first = Return r1 ->
     status r1 = 201 ->
     fst second = Return r2 ->
     status r2 <> 201).
Proof.
  intros Hreach. split; [apply reachable_unique_emails, Hreach|]. split.
  - intros fields fn ln em Hp [Hfn _] [Hln _] [Hem Henc] Hfit Hfresh first second.
    set (data := InsertWaitlistRegistration.mk fn ln em).
    set (s1 := log_query (select_waitlist_by_email em) (set_env [] s)).
    assert (Hfirst : first =
              (Return (created (new_row data (clock s) (db s))), inserted data s1)).
    { subst first. apply (post_api_waitlist_fresh fields fn ln em (set_env [] s));
        [reflexivity | exact Hp | repeat split; assumption
         | rewrite Henc; exact Hfit | rewrite Henc; exact Hfresh]. }
    assert (Hrows : waitlistRegistrations (db (inserted data s1)) =
                    waitlistRegistrations (db s) ++ [new_row data (clock s) (db s)])
      by reflexivity.
    assert (Hrow : WaitlistRegistration.email (new_row data (clock s) (db s)) = em)
      by exact Henc.
    assert (Hsecond : second =
              (Return already_registered,
               log_query (select_waitlist_by_email em) (inserted data s1))).
    { subst second. rewrite Hfirst. simpl snd.
      apply (post_api_waitlist_registered fields fn ln em);
        [reflexivity | exact Hp | exact Hem |].
      exists (new_row data (clock s) (db s)). split; [|rewrite Henc; exact Hrow].
      rewrite Hrows. apply in_or_app. right. now left. }
    split; [|split; [|split]].
    + exists (created (new_row data (clock s) (db s))), (new_row data (clock s) (db s)).
      rewrite Hfirst. simpl fst. simpl snd. rewrite Hrows, last_snoc. auto.
    + exists already_registered. rewrite Hsecond. auto.
    + apply reachable_unique_emails. subst second first.
      apply (reachable_serve _ (POST_api_waitlist (JObj fields))).
      apply (reachable_serve _ (POST_api_waitlist (JObj fields))).
      apply reachable_env, Hreach.
    + rewrite Hsecond. simpl snd.
      change (db (log_query (select_waitlist_by_email em) (inserted data s1)))
        with (db (inserted data s1)).
      rewrite Hrows, List.filter_app.
      rewrite filter_eqb_absent by (rewrite In_fmap_email; exact Hfresh).
      simpl. rewrite Henc, String.eqb_refl. reflexivity.
  - intros fields fn ln em e1 e2 r1 r2 Hp first second H1 Hs1 H2.
    assert (Hreg : email_registered (encode_utf8 em) (set_env e2 (snd first))).
    { apply (post_api_waitlist_created_registered fields fn ln em (set_env e1 s)
               (snd first) r1 Hp); [|exact Hs1].
      fold first. rewrite <- H1. apply surjective_pairing. }
    destruct (post_api_waitlist_registered_any fields fn ln em _ Hp Hreg) as [[H|H] _];
      fold second in H; rewrite H in H2; injection H2 as <-; discriminate.
Qed.

Lemma one_registration_per_email_witness :
  unique_emails (boot 0 []) /\
  exists r2,
    fst (post_api_waitlist (JObj ada_fields)
           (snd (post_api_waitlist (JObj ada_fields) (boot 0 [])))) = Return r2 /\
    status r2 = 409.
Proof.
  destruct (one_registration_per_email (boot 0 []) (reachable_boot 0 []))
    as (H1 & H2 & _).
  split; [exact H1|].
  assert (Hp : payload "Ada" "Lovelace" "ada@example.com" ada_fields)
    by (repeat split; vm_compute; reflexivity).
  assert (Hfresh : ~ email_registered "ada@example.com" (boot 0 []))
    by (intros (r & [] & _)).
  destruct (H2 ada_fields "Ada" "Lovelace" "ada@example.com" Hp)
    as (_ & (r2 & Hr2 & Hs2 & _) & _).
  - split; reflexivity.
  - split; reflexivity.
  - split; reflexivity.
  - unfold indexable. vm_compute. lia.
  - exact Hfresh.
  - exists r2. split; [exact Hr2 | exact Hs2].
Defined.



(** C3. A payload whose email is registered already, whatever its name
    strings, is answered with 409; the only statement sent is the lookup,
    so nothing is inserted, the database is as before and so is the
    count. Under interference the answer can only turn into the 500 of a
    failed lookup, and still the lookup is all that is sent. The email is
    one the database stores as it is, as an email read from the table is. *)
Theorem post_registered_email_conflict (fields : gmap string json) (fn ln em : string)
    (s : Sys) :
  payload fn ln em fields ->
  stored_verbatim em ->
  email_registered em s ->
  (env s = [] ->
   exists (resp : Response) (s' : Sys),
     post_api_waitlist (JObj fields) s = (Return resp, s') /\
     status resp = 409 /\
     body resp =
       JObj {[ "message" := JStr "This email is already registered for the waitlist" ]} /\
     db s' = db s /\
     queries s' = queries s ++ [select_waitlist_by_email em] /\
     fst (getWaitlistCount s') = fst (getWaitlistCount s)) /\
  is_insert (select_waitlist_by_email em) = false /\
  (exists resp : Response,
     fst (post_api_waitlist (JObj fields) s) = Return resp /\
     (status resp = 409 \/ status resp = 500)) /\
  queries (snd (post_api_waitlist (JObj fields) s)) =
    queries s ++ [select_waitlist_by_email em].
Proof.
  intros Hp [Hem Eem] Hreg. rewrite <- Eem in Hreg.
  split; [|split; [reflexivity|]].
  - intros He.
    exists already_registered, (log_query (select_waitlist_by_email em) s).
    split; [|split; [|split; [|split; [|split]]]].
    + apply (post_api_waitlist_registered fields fn ln em s He Hp Hem Hreg).
    + reflexivity.
    + reflexivity.
    + reflexivity.
    + reflexivity.
    + rewrite !getWaitlistCount_quiet by exact He. reflexivity.
  - destruct (post_api_waitlist_registered_any fields fn ln em s Hp Hreg) as [[H|H] Hq];
      (split; [|exact Hq]); eexists; (split; [exact H|]); [left | right]; reflexivity.
Qed.

Lemma post_registered_email_conflict_witness :
  exists resp : Response,
    fst (post_api_waitlist (JObj grace_fields) ada_registered) = Return resp /\
    status resp = 409 /\
    db (snd (post_api_waitlist (JObj grace_fields) ada_registered)) = db ada_registered.
Proof.
  assert (Hp : payload "Grace" "Hopper" "ada@example.com" grace_fields)
    by (repeat split; vm_compute; reflexivity).
  assert (Hreg : email_registered "ada@example.com" ada_registered).
  { exists (WaitlistRegistration.mk (gen_random_uuid []) "Ada" "Lovelace"
              "ada@example.com" 0).
    split; [vm_compute; left; reflexivity | reflexivity]. }
  destruct (post_registered_email_conflict grace_fields "Grace" "Hopper" "ada@example.com"
              ada_registered Hp (conj eq_refl eq_refl) Hreg) as (Hquiet & _).
  destruct (Hquiet eq_refl) as (resp & s' & H1 & H2 & _ & H3 & _).
  exists resp. rewrite H1. simpl. auto.
Defined.

(** C4, as stated, fails: an empty first name and an email that is not
    an email address both pass the schema of the server, which only asks
    for strings. Each of the two payloads is answered with 201, after a
    lookup and an insert, and the table has a row more. *)
Lemma empty_name_and_malformed_email_accepted :
  (nameless_fields !! "firstName" = Some (JStr "") /\
   let run := post_api_waitlist (JObj nameless_fields) (boot 0 []) in
   (exists row, fst run = Return (created row)) /\
   (forall r, fst run = Return r -> status r <> 400) /\
   length (queries (snd run)) = 2%nat /\
   length (waitlistRegistrations (db (snd run))) = 1%nat) /\
  (malformed_email_fields !! "email" = Some (JStr "not-an-email") /\
   let run := post_api_waitlist (JObj malformed_email_fields) (boot 0 []) in
   (exists row, fst run = Return (created row)) /\
   (forall r, fst run = Return r -> status r <> 400) /\
   length (queries (snd run)) = 2%nat /\
   length (waitlistRegistrations (db (snd run))) = 1%nat).
Proof.
  split; (split; [vm_compute; reflexivity|]); cbv zeta.
  - rewrite (post_api_waitlist_fresh nameless_fields "" "Lovelace" "ada@example.com");
      [| reflexivity | repeat split; vm_compute; reflexivity
       | repeat split; reflexivity | unfold indexable; vm_compute; lia
       | apply not_registered_at_boot].
    split; [eexists; reflexivity|]. split; [|split; reflexivity].
    intros r [= <-]. discriminate.
  - rewrite (post_api_waitlist_fresh malformed_email_fields "Ada" "Lovelace" "not-an-email");
      [| reflexivity | repeat split; vm_compute; reflexivity
       | repeat split; reflexivity | unfold indexable; vm_compute; lia
       | apply not_registered_at_boot].
    split; [eexists; reflexivity|]. split; [|split; reflexivity].
    intros r [= <-]. discriminate.
Qed.

(** C4, amended. A payload in which [firstName], [lastName] or [email] is
    missing or is not a string is answered with 400 and one violation for
    each such field; no statement is sent and the system is exactly as
    before, so the count is as well. *)
Theorem post_non_string_field_rejected (fields : gmap string json) (s : Sys) :
  is_string (fields !! "firstName") && is_string (fields !! "lastName") &&
    is_string (fields !! "email") = false ->
  post_api_waitlist (JObj fields) s =
    (Return
       (res_status_json 400
          (JObj {[ "message" := JStr "Validation failed";
                   "errors" := JArr (ZodIssue_json <$> field_issues fields) ]})),
     s) /\
  field_issues fields <> [] /\
  forall k : string,
    In k ["firstName"; "lastName"; "email"] ->
    (is_string (fields !! k) = false <->
     exists i, In i (field_issues fields) /\ path i = [k]).
Proof.
  intros H. split; [|split].
  - apply post_api_waitlist_invalid, safeParse_not_strings, H.
  - unfold field_issues. rewrite !ZodString_parse_issues.
    destruct (is_string (fields !! "firstName")), (is_string (fields !! "lastName")),
      (is_string (fields !! "email")); simpl in *; discriminate.
  - clear H. unfold field_issues. rewrite !ZodString_parse_issues.
    intros k Hk.
    destruct (is_string (fields !! "firstName")) eqn:E1,
      (is_string (fields !! "lastName")) eqn:E2,
      (is_string (fields !! "email")) eqn:E3;
      simpl in Hk; destruct Hk as [<-|[<-|[<-|[]]]];
      match goal with
      | |- _ <-> (exists i, _ /\ path i = [?k]) =>
          split;
          [ intros Hs; rewrite ?E1, ?E2, ?E3 in Hs; try discriminate Hs;
            (exists (invalid_type ZString (getParsedType (fields !! k)) [k]);
             split; [simpl; auto | reflexivity])
          | intros (i & Hi & Hpath); rewrite ?E1, ?E2, ?E3; try reflexivity;
            simpl in Hi;
            repeat (destruct Hi as [<-|Hi]; [simpl in Hpath; discriminate Hpath|]);
            destruct Hi ]
      end.
Qed.

Lemma post_non_string_field_rejected_witness :
  fst (post_api_waitlist (JObj {[ "firstName" := JNum 7; "email" := JStr "ada@example.com" ]})
         ada_registered) =
    Return (validation_failed
              [invalid_type ZString ZNumber ["firstName"];
               invalid_type ZString ZUndefined ["lastName"]]) /\
  snd (post_api_waitlist (JObj {[ "firstName" := JNum 7; "email" := JStr "ada@example.com" ]})
         ada_registered) = ada_registered.
Proof.
  destruct (post_non_string_field_rejected
              {[ "firstName" := JNum 7; "email" := JStr "ada@example.com" ]}
              ada_registered) as (H & _).
  - vm_compute. reflexivity.
  - rewrite H. split; [|reflexivity]. vm_compute. reflexivity.
Defined.

(** C5, as stated, fails: when a concurrent request commits the same
    email after the lookup found nothing, the insert raises the
    uniqueness violation and the handler answers 500, not 409. *)
Lemma racing_insert_answered_500 :
  exists s1 s2 : Sys,
    getWaitlistRegistrationByEmail "ada@example.com" racing = (Return None, s1) /\
    createWaitlistRegistration
      (InsertWaitlistRegistration.mk "Ada" "Lovelace" "ada@example.com") s1 =
      (Throw (unique_violation "waitlist_registrations_email_unique"), s2) /\
    fst (post_api_waitlist (JObj ada_fields) racing) = Return internal_server_error /\
    status internal_server_error = 500 /\
    internal_server_error <> already_registered.
Proof.
  eexists. eexists. split; [vm_compute; reflexivity|].
  split; [vm_compute; reflexivity|].
  split; [|split; [reflexivity|]].
  - rewrite (post_api_waitlist_cases _
               (InsertWaitlistRegistration.mk "Ada" "Lovelace" "ada@example.com"))
      by (apply safeParse_payload, ada_payload).
    vm_compute. reflexivity.
  - intros H. apply (f_equal status) in H. discriminate H.
Qed.

(** C5, amended. A uniqueness violation raised by the insert, after the
    lookup found nothing, is caught by the handler and answered with the
    generic 500 response; the violation goes to the server console. *)
Theorem insert_violation_answered_500 (fields : gmap string json) (fn ln em : string)
    (constraint : string) (s s1 s2 : Sys) :
  payload fn ln em fields ->
  getWaitlistRegistrationByEmail em s = (Return None, s1) ->
  createWaitlistRegistration (InsertWaitlistRegistration.mk fn ln em) s1 =
    (Throw (unique_violation constraint), s2) ->
  post_api_waitlist (JObj fields) s =
    (Return (res_status_json 500 (JObj {[ "message" := JStr "Internal server error" ]})),
     log_error "Error creating waitlist registration:" (unique_violation constraint) s2).
Proof.
  intros Hp Hget Hcreate.
  rewrite (post_api_waitlist_cases _ (InsertWaitlistRegistration.mk fn ln em))
    by (apply safeParse_payload, Hp).
  simpl. rewrite Hget, Hcreate. reflexivity.
Qed.

Lemma insert_violation_answered_500_witness :
  fst (post_api_waitlist (JObj ada_fields) racing) =
    Return (res_status_json 500 (JObj {[ "message" := JStr "Internal server error" ]})).
Proof.
  rewrite (insert_violation_answered_500 ada_fields "Ada" "Lovelace" "ada@example.com"
             "waitlist_registrations_email_unique" racing
             (snd (getWaitlistRegistrationByEmail "ada@example.com" racing))
             (snd (createWaitlistRegistration
                     (InsertWaitlistRegistration.mk "Ada" "Lovelace" "ada@example.com")
                     (snd (getWaitlistRegistrationByEmail "ada@example.com" racing))))).
  - reflexivity.
  - repeat split; vm_compute; reflexivity.
  - vm_compute. reflexivity.
  - vm_compute. reflexivity.
Defined.

(** C6. Neither handler ever throws, and an error thrown by any of the
    storage calls they make (the lookup, the insert, the count) is
    answered with status 500 and the fixed body
    [{ message: "Internal server error" }], which has nothing of the
    error in it; the error itself goes to the server console. *)
Theorem store_errors_answered_500 :
  (forall (req : Request) (s : Sys),
     exists r s', registerRoutes req s = (Return r, s')) /\
  (forall (fields : gmap string json) (fn ln em : string) (e : Error) (s s1 : Sys),
     payload fn ln em fields ->
     getWaitlistRegistrationByEmail em s = (Throw e, s1) ->
     exists resp : Response,
       post_api_waitlist (JObj fields) s =
         (Return resp, log_error "Error creating waitlist registration:" e s1) /\
       status resp = 500 /\
       body resp = JObj {[ "message" := JStr "Internal server error" ]}) /\
  (forall (fields : gmap string json) (fn ln em : string) (e : Error) (s s1 s2 : Sys),
     payload fn ln em fields ->
     getWaitlistRegistrationByEmail em s = (Return None, s1) ->
     createWaitlistRegistration (InsertWaitlistRegistration.mk fn ln em) s1 = (Throw e, s2) ->
     exists resp : Response,
       post_api_waitlist (JObj fields) s =
         (Return resp, log_error "Error creating waitlist registration:" e s2) /\
       status resp = 500 /\
       body resp = JObj {[ "message" := JStr "Internal server error" ]}) /\
  (forall (e : Error) (s s1 : Sys),
     getWaitlistCount s = (Throw e, s1) ->
     exists resp : Response,
       get_api_waitlist_count s =
         (Return resp, log_error "Error getting waitlist count:" e s1) /\
       status resp = 500 /\
       body resp = JObj {[ "message" := JStr "Internal server error" ]}).
Proof.
  split; [|split; [|split]].
  - intros [req_body|] s; simpl.
    + destruct (insertWaitlistRegistrationSchema_safeParse req_body) as [data|issues] eqn:E.
      * rewrite (post_api_waitlist_cases _ data s E).
        destruct (getWaitlistRegistrationByEmail _ s) as [[[existing|]|e] s1]; eauto.
        destruct (createWaitlistRegistration data s1) as [[[registration|]|e] s2]; eauto.
      * rewrite (post_api_waitlist_invalid _ issues s E). eauto.
    + unfold get_api_waitlist_count, try_catch, mbind, Async_bind.
      destruct (getWaitlistCount s) as [[n|e] s1]; eauto.
  - intros fields fn ln em e s s1 Hp Hget. exists internal_server_error.
    rewrite (post_api_waitlist_cases _ (InsertWaitlistRegistration.mk fn ln em))
      by (apply safeParse_payload, Hp).
    simpl. rewrite Hget. auto.
  - intros fields fn ln em e s s1 s2 Hp Hget Hcreate. exists internal_server_error.
    rewrite (post_api_waitlist_cases _ (InsertWaitlistRegistration.mk fn ln em))
      by (apply safeParse_payload, Hp).
    simpl. rewrite Hget, Hcreate. auto.
  - intros e s s1 Hcount. exists internal_server_error.
    unfold get_api_waitlist_count, try_catch, mbind at 1, Async_bind at 1.
    rewrite Hcount. auto.
Qed.

Lemma store_errors_answered_500_witness :
  (exists resp,
     fst (post_api_waitlist (JObj ada_fields) (boot 0 [Fault connection_lost])) =
       Return resp /\ status resp = 500) /\
  (exists resp,
     fst (post_api_waitlist (JObj ada_fields) (boot 0 [Quiet; Fault connection_lost])) =
       Return resp /\ status resp = 500) /\
  (exists resp,
     fst (get_api_waitlist_count (boot 0 [Fault connection_lost])) = Return resp /\
     status resp = 500).
Proof.
  destruct store_errors_answered_500 as (_ & Hget & Hcreate & Hcount).
  assert (Hp : payload "Ada" "Lovelace" "ada@example.com" ada_fields)
    by (repeat split; vm_compute; reflexivity).
  split; [|split].
  - destruct (Hget ada_fields "Ada" "Lovelace" "ada@example.com" connection_lost
                (boot 0 [Fault connection_lost])
                (snd (getWaitlistRegistrationByEmail "ada@example.com"
                        (boot 0 [Fault connection_lost]))) Hp)
      as (resp & Hrun & Hstatus & _).
    + vm_compute. reflexivity.
    + exists resp. rewrite Hrun. auto.
  - destruct (Hcreate ada_fields "Ada" "Lovelace" "ada@example.com" connection_lost
                (boot 0 [Quiet; Fault connection_lost])
                (snd (getWaitlistRegistrationByEmail "ada@example.com"
                        (boot 0 [Quiet; Fault connection_lost])))
                (snd (createWaitlistRegistration
                        (InsertWaitlistRegistration.mk "Ada" "Lovelace" "ada@example.com")
                        (snd (getWaitlistRegistrationByEmail "ada@example.com"
                                (boot 0 [Quiet; Fault connection_lost])))))
                Hp)
      as (resp & Hrun & Hstatus & _).
    + vm_compute. reflexivity.
    + vm_compute. reflexivity.
    + exists resp. rewrite Hrun. auto.
  - destruct (Hcount connection_lost (boot 0 [Fault connection_lost])
                (snd (getWaitlistCount (boot 0 [Fault connection_lost]))))
      as (resp & Hrun & Hstatus & _).
    + vm_compute. reflexivity.
    + exists resp. rewrite Hrun. auto.
Defined.

(** C7. [getWaitlistCount] returns the number of rows of the table, 0
    for the empty table, and the count handler sends that number as it
    is, with status 200. With a quiet environment the call always
    returns; under any environment a number that is returned is the
    number of rows, and it is what the handler sends. *)
Theorem count_is_number_of_rows (s : Sys) :
  (env s = [] ->
   fst (getWaitlistCount s) = Return (Z.of_nat (length (waitlistRegistrations (db s)))) /\
   fst (get_api_waitlist_count s) =
     Return (res_status_json 200
               (JObj {[ "count" := JNum (Z.of_nat (length (waitlistRegistrations (db s)))) ]})) /\
   db (snd (get_api_waitlist_count s)) = db s) /\
  (env s = [] -> waitlistRegistrations (db s) = [] ->
   fst (getWaitlistCount s) = Return 0) /\
  (forall (n : Z) (s' : Sys),
     getWaitlistCount s = (Return n, s') ->
     n = Z.of_nat (length (waitlistRegistrations (db s'))) /\
     get_api_waitlist_count s =
       (Return (res_status_json 200 (JObj {[ "count" := JNum n ]})), s')).
Proof.
  split; [|split].
  - intros He.
    rewrite (get_api_waitlist_count_returns s _ _ (getWaitlistCount_quiet s He)).
    rewrite getWaitlistCount_quiet by exact He. auto.
  - intros He Hempty. rewrite getWaitlistCount_quiet by exact He.
    rewrite Hempty. reflexivity.
  - intros n s' H. split; [apply (getWaitlistCount_returns s s' n H)|].
    apply get_api_waitlist_count_returns, H.
Qed.

Lemma count_is_number_of_rows_witness :
  fst (getWaitlistCount (boot 0 [])) = Return 0 /\
  fst (get_api_waitlist_count ada_registered) =
    Return (res_status_json 200 (JObj {[ "count" := JNum 1 ]})).
Proof.
  split.
  - destruct (count_is_number_of_rows (boot 0 [])) as (_ & H & _).
    apply H; reflexivity.
  - destruct (count_is_number_of_rows ada_registered) as (H & _).
    destruct (H eq_refl) as (_ & H2 & _). exact H2.
Defined.

(** C8. A 201 response carries a registration object with exactly the
    keys [id], [firstName], [lastName] and [email], whose values are
    those of the row just inserted; there is no [createdAt] in it. *)
Theorem created_response_fields (req_body : json) (s s' : Sys) (r : Response) :
  post_api_waitlist req_body s = (Return r, s') ->
  status r = 201 ->
  exists (row : WaitlistRegistration.t) (registration : gmap string json),
    last (waitlistRegistrations (db s')) = Some row /\
    body r = JObj {[ "message" := JStr "Successfully added to waitlist";
                     "registration" := JObj registration ]} /\
    dom registration = ({[ "id"; "firstName"; "lastName"; "email" ]} : gset string) /\
    registration !! "id" = Some (JStr (WaitlistRegistration.id row)) /\
    registration !! "firstName" = Some (JStr (WaitlistRegistration.firstName row)) /\
    registration !! "lastName" = Some (JStr (WaitlistRegistration.lastName row)) /\
    registration !! "email" = Some (JStr (WaitlistRegistration.email row)) /\
    registration !! "createdAt" = None.
Proof.
  intros Hrun Hstatus.
  destruct (insertWaitlistRegistrationSchema_safeParse req_body) as [data|issues] eqn:E.
  2:{ rewrite (post_api_waitlist_invalid _ issues s E) in Hrun.
      injection Hrun as <- <-. discriminate Hstatus. }
  rewrite (post_api_waitlist_cases _ data s E) in Hrun.
  destruct (getWaitlistRegistrationByEmail _ s) as [[[existing|]|e] s1];
    try (injection Hrun as <- <-; discriminate Hstatus).
  destruct (createWaitlistRegistration data s1) as [[registration|e] s2] eqn:Ecreate.
  2:{ injection Hrun as <- <-. discriminate Hstatus. }
  destruct (createWaitlistRegistration_returns data s1 s2 registration Ecreate)
    as (row & rows & -> & Hrows & _).
  injection Hrun as <- <-.
  exists row.
  exists {[ "id" := JStr (WaitlistRegistration.id row);
            "firstName" := JStr (WaitlistRegistration.firstName row);
            "lastName" := JStr (WaitlistRegistration.lastName row);
            "email" := JStr (WaitlistRegistration.email row) ]}.
  split; [rewrite Hrows; apply last_snoc|].
  split; [reflexivity|].
  split; [rewrite !dom_insert_L, dom_singleton_L; set_solver|].
  repeat split; vm_compute; reflexivity.
Qed.

Lemma created_response_fields_witness :
  exists registration : gmap string json,
    body (created (WaitlistRegistration.mk "0" "Ada" "Lovelace" "ada@example.com" 0)) =
      JObj {[ "message" := JStr "Successfully added to waitlist";
              "registration" := JObj registration ]} /\
    registration !! "email" = Some (JStr "ada@example.com") /\
    registration !! "createdAt" = None.
Proof.
  destruct (created_response_fields (JObj ada_fields) (boot 0 []) ada_registered
              (created (WaitlistRegistration.mk "0" "Ada" "Lovelace" "ada@example.com" 0)))
    as (row & registration & Hlast & Hbody & _ & _ & _ & _ & Hemail & Hcreated).
  - vm_compute. reflexivity.
  - reflexivity.
  - exists registration. split; [exact Hbody|].
    assert (Hrow : row = WaitlistRegistration.mk "0" "Ada" "Lovelace" "ada@example.com" 0).
    { vm_compute in Hlast. injection Hlast as <-. reflexivity. }
    rewrite Hrow in Hemail. auto.
Defined.

(** C9. Whatever the request and whatever the environment does, the
    [users] table is the same after a handler as before it, every
    statement the handler sends is on the registrations table, and
    registrations are only appended. With a quiet environment the clock
    is as before and at most one registration is added. *)
Theorem routes_leave_users_alone (req : Request) (s : Sys) :
  let s' := snd (registerRoutes req s) in
  users (db s') = users (db s) /\
  (exists sent,
     queries s' = queries s ++ sent /\
     Forall (fun q => table_of q = waitlist_registrations_table) sent) /\
  (exists added,
     waitlistRegistrations (db s') = waitlistRegistrations (db s) ++ added) /\
  (env s = [] ->
   clock s' = clock s /\ env s' = [] /\
   exists added,
     waitlistRegistrations (db s') = waitlistRegistrations (db s) ++ added /\
     (length added <= 1)%nat).
Proof.
  intros s'. destruct (preserves_registerRoutes req s) as [[Hu Hrows _] Hq].
  fold s' in Hu, Hrows, Hq.
  split; [exact Hu|]. split; [exact Hq|]. split; [exact Hrows|].
  intros He. subst s'.
  assert (Hawait : forall (A : Type) (q : Query)
                     (exec : Z -> Database -> Outcome A * Database) (s0 : Sys),
            env s0 = [] ->
            (forall now d,
               exists added,
                 waitlistRegistrations (snd (exec now d)) =
                   waitlistRegistrations d ++ added /\ (length added <= 1)%nat) ->
            clock (snd (await q exec s0)) = clock s0 /\
            env (snd (await q exec s0)) = [] /\
            exists added,
              waitlistRegistrations (db (snd (await q exec s0))) =
                waitlistRegistrations (db s0) ++ added /\ (length added <= 1)%nat).
  { intros A q exec s0 H0 Hexec. rewrite await_quiet by exact H0. simpl.
    split; [reflexivity|]. split; [exact H0|]. apply Hexec. }
  assert (Hsame : forall d : Database,
            exists added : list WaitlistRegistration.t,
              waitlistRegistrations d = waitlistRegistrations d ++ added /\
              (length added <= 1)%nat).
  { intros d. exists []. rewrite app_nil_r. simpl. split; [reflexivity | lia]. }
  destruct req as [req_body|]; simpl.
  - destruct (insertWaitlistRegistrationSchema_safeParse req_body) as [data|issues] eqn:E.
    2:{ rewrite (post_api_waitlist_invalid _ issues s E). simpl.
        split; [reflexivity|]. split; [exact He|]. apply Hsame. }
    rewrite (post_api_waitlist_cases _ data s E).
    destruct (Hawait _ (select_waitlist_by_email (InsertWaitlistRegistration.email data))
                (fun _ d => exec_select_waitlist_by_email
                              (InsertWaitlistRegistration.email data) d) s He)
      as (Hc1 & He1 & added1 & Hr1 & Hl1).
    { intros now d. rewrite exec_select_waitlist_snd. apply Hsame. }
    assert (Hadded1 : added1 = []).
    { rewrite await_quiet in Hr1 by exact He. simpl in Hr1.
      rewrite exec_select_waitlist_snd in Hr1.
      rewrite <- (app_nil_r (waitlistRegistrations (db s))) in Hr1 at 1.
      apply app_inv_head in Hr1. now subst. }
    subst added1. rewrite app_nil_r in Hr1.
    assert (Hsnd : snd (getWaitlistRegistrationByEmail
                          (InsertWaitlistRegistration.email data) s) =
                   snd (await (select_waitlist_by_email
                                 (InsertWaitlistRegistration.email data))
                          (fun _ d => exec_select_waitlist_by_email
                                        (InsertWaitlistRegistration.email data) d) s)).
    { unfold getWaitlistRegistrationByEmail, mbind, Async_bind.
      destruct (await _ _ s) as [[rows|e] s0]; reflexivity. }
    rewrite <- Hsnd in Hc1, He1, Hr1.
    destruct (getWaitlistRegistrationByEmail _ s) as [[[existing|]|e] s1];
      simpl in Hc1, He1, Hr1; simpl.
    + split; [exact Hc1|]. split; [exact He1|]. rewrite Hr1. apply Hsame.
    + destruct (Hawait _ (insert_waitlist data)
                  (fun now d => exec_insert_waitlist data now d) s1 He1)
        as (Hc2 & He2 & added2 & Hr2 & Hl2).
      { intros now d.
        destruct (exec_insert_waitlist_cases data now d) as [[-> _]|(-> & _)];
          [apply Hsame|]. simpl. eexists. split; [reflexivity|]. simpl. lia. }
      assert (Hsnd2 : snd (createWaitlistRegistration data s1) =
                      snd (await (insert_waitlist data)
                             (fun now d => exec_insert_waitlist data now d) s1)).
      { unfold createWaitlistRegistration, mbind, Async_bind.
        destruct (await _ _ s1) as [[rows|e] s0]; reflexivity. }
      rewrite <- Hsnd2 in Hc2, He2, Hr2.
      destruct (createWaitlistRegistration data s1) as [[[registration|]|e] s2];
        simpl in Hc2, He2, Hr2; simpl;
        (split; [congruence|]); (split; [exact He2|]);
        exists added2; rewrite Hr2, Hr1; auto.
    + split; [exact Hc1|]. split; [exact He1|]. rewrite Hr1. apply Hsame.
  - rewrite (get_api_waitlist_count_returns s _ _ (getWaitlistCount_quiet s He)). simpl.
    split; [reflexivity|]. split; [exact He|]. apply Hsame.
Qed.

Lemma routes_leave_users_alone_witness :
  users (db (snd (registerRoutes (POST_api_waitlist (JObj ada_fields)) (boot 0 [])))) = [] /\
  clock (snd (registerRoutes (POST_api_waitlist (JObj ada_fields)) (boot 0 []))) = 0.
Proof.
  destruct (routes_leave_users_alone (POST_api_waitlist (JObj ada_fields)) (boot 0 []))
    as (Hu & _ & _ & Hquiet).
  destruct (Hquiet eq_refl) as (Hclock & _).
  split; [exact Hu | exact Hclock].
Defined.

(** C10. The answer to a signup and the state it leaves depend on the
    [firstName], [lastName] and [email] of the body only: two objects
    that agree on these three keys are handled alike, and so is an
    object with a further key added, which the schema strips. *)
Theorem post_depends_on_three_fields (fields1 fields2 : gmap string json) (s : Sys) :
  fields1 !! "firstName" = fields2 !! "firstName" ->
  fields1 !! "lastName" = fields2 !! "lastName" ->
  fields1 !! "email" = fields2 !! "email" ->
  post_api_waitlist (JObj fields1) s = post_api_waitlist (JObj fields2) s /\
  forall (k : string) (v : json),
    ~ In k ["firstName"; "lastName"; "email"] ->
    post_api_waitlist (JObj (<[k:=v]> fields1)) s = post_api_waitlist (JObj fields2) s.
Proof.
  intros Hf Hl He.
  assert (Hagree : forall g : gmap string json,
            g !! "firstName" = fields2 !! "firstName" ->
            g !! "lastName" = fields2 !! "lastName" ->
            g !! "email" = fields2 !! "email" ->
            post_api_waitlist (JObj g) s = post_api_waitlist (JObj fields2) s).
  { intros g H1 H2 H3.
    unfold post_api_waitlist, post_api_waitlist_try,
      insertWaitlistRegistrationSchema_safeParse.
    rewrite H1, H2, H3. reflexivity. }
  split; [apply Hagree; assumption|].
  intros k v Hk. simpl in Hk.
  apply Hagree; (rewrite lookup_insert_ne; [assumption | intros ->; tauto]).
Qed.

Lemma post_depends_on_three_fields_witness :
  post_api_waitlist (JObj (<["role" := JStr "admin"]> ada_fields)) (boot 0 []) =
    post_api_waitlist (JObj ada_fields) (boot 0 []).
Proof.
  apply (post_depends_on_three_fields (<["role" := JStr "admin"]> ada_fields) ada_fields
           (boot 0 [])); vm_compute; reflexivity.
Defined.

(** * Further properties of the storage class, the routes and the schemas *)

(** ** One round trip, whatever the environment does *)

Lemma interfere_console (s : Sys) : console (snd (interfere s)) = console s.
Proof. unfold interfere. destruct (env s) as [|[|dt|v|e] rest]; reflexivity. Qed.

Lemma interfere_users (s : Sys) : users (db (snd (interfere s))) = users (db s).
Proof. apply (db_users _ _ (evolves_db _ _ (interfere_evolves s))). Qed.

Lemma interfere_rows (s : Sys) :
  exists added,
    waitlistRegistrations (db (snd (interfere s))) = waitlistRegistrations (db s) ++ added.
Proof. apply (db_rows _ _ (evolves_db _ _ (interfere_evolves s))). Qed.

Lemma interfere_quiet (s : Sys) : env s = [] -> interfere s = (None, s).
Proof. intros He. unfold interfere. rewrite He. reflexivity. Qed.

Lemma await_cases {A : Type} (q : Query) (exec : Z -> Database -> Outcome A * Database)
    (s : Sys) :
  await q exec s =
    match fst (interfere (log_query q s)) with
    | Some e => (Throw e, snd (interfere (log_query q s)))
    | None =>
        (fst (exec (clock (snd (interfere (log_query q s))))
                (db (snd (interfere (log_query q s))))),
         set_db (snd (exec (clock (snd (interfere (log_query q s))))
                        (db (snd (interfere (log_query q s))))))
           (snd (interfere (log_query q s))))
    end.
Proof.
  unfold await. destruct (interfere (log_query q s)) as [[e|] s1]; simpl; [reflexivity|].
  destruct (exec (clock s1) (db s1)); reflexivity.
Qed.

Lemma await_queries {A : Type} (q : Query) (exec : Z -> Database -> Outcome A * Database)
    (s : Sys) :
  queries (snd (await q exec s)) = queries s ++ [q].
Proof.
  rewrite await_cases. pose proof (interfere_queries (log_query q s)) as H.
  destruct (fst (interfere (log_query q s))); simpl; exact H.
Qed.

Lemma await_console {A : Type} (q : Query) (exec : Z -> Database -> Outcome A * Database)
    (s : Sys) :
  console (snd (await q exec s)) = console s.
Proof.
  rewrite await_cases. pose proof (interfere_console (log_query q s)) as H.
  destruct (fst (interfere (log_query q s))); simpl; exact H.
Qed.

Lemma bind_ret_snd {A B : Type} (m : Async A) (f : A -> B) (s : Sys) :
  snd ((m ≫= fun a => mret (f a)) s) = snd (m s).
Proof. unfold mbind, Async_bind. destruct (m s) as [[a|e] s']; reflexivity. Qed.

Lemma bind_ret_fst {A B : Type} (m : Async A) (f : A -> B) (s : Sys) :
  fst ((m ≫= fun a => mret (f a)) s) =
    match fst (m s) with
    | Return a => Return (f a)
    | Throw e => Throw e
    end.
Proof. unfold mbind, Async_bind. destruct (m s) as [[a|e] s']; reflexivity. Qed.

Lemma bind_pure_snd {A B : Type} (m : Async A) (k : A -> Async B) (s : Sys) :
  (forall a s', snd (k a s') = s') -> snd ((m ≫= k) s) = snd (m s).
Proof.
  intros Hk. unfold mbind, Async_bind. destruct (m s) as [[a|e] s']; [apply Hk | reflexivity].
Qed.

Lemma after_call_await (c : StorageCall) (s : Sys) :
  after_call c s =
    match c with
    | call_getUser id =>
        snd (await (select_users_by_id id) (fun _ d => exec_select_users_by_id id d) s)
    | call_getUserByUsername username =>
        snd (await (select_users_by_username username)
               (fun _ d => exec_select_users_by_username username d) s)
    | call_createUser v =>
        snd (await (insert_users v) (fun _ d => exec_insert_users v d) s)
    | call_getWaitlistRegistrationByEmail email =>
        snd (await (select_waitlist_by_email email)
               (fun _ d => exec_select_waitlist_by_email email d) s)
    | call_createWaitlistRegistration v =>
        snd (await (insert_waitlist v) (fun now d => exec_insert_waitlist v now d) s)
    | call_getWaitlistCount =>
        snd (await select_count_waitlist
               (fun _ d => (Return (exec_select_count_waitlist d), d)) s)
    end.
Proof. destruct c; apply bind_pure_snd; reflexivity. Qed.

(** ** Properties of the database that every entry point keeps *)

Lemma maintains_ret {A : Type} (I : Sys -> Prop) (a : A) : maintains I (mret a).
Proof. intros s H. exact H. Qed.

Lemma maintains_throw {A : Type} (I : Sys -> Prop) (e : Error) :
  maintains I (throw (A:=A) e).
Proof. intros s H. exact H. Qed.

Lemma maintains_bind {A B : Type} (I : Sys -> Prop) (m : Async A) (k : A -> Async B) :
  maintains I m -> (forall a, maintains I (k a)) -> maintains I (m ≫= k).
Proof.
  intros Hm Hk s Hs. unfold mbind, Async_bind. specialize (Hm s Hs).
  destruct (m s) as [[a|e] s']; simpl in *; [apply Hk, Hm | exact Hm].
Qed.

Lemma maintains_try_catch {A : Type} (I : Sys -> Prop) (block : Async A)
    (handler : Error -> Async A) :
  maintains I block -> (forall e, maintains I (handler e)) ->
  maintains I (try_catch block handler).
Proof.
  intros Hb Hh s Hs. unfold try_catch. specialize (Hb s Hs).
  destruct (block s) as [[a|e] s']; simpl in *; [exact Hb | apply Hh, Hb].
Qed.

Section DatabaseInvariant.

Variable P : Database -> Prop.
Hypothesis P_insert_waitlist :
  forall v now d, P d -> P (snd (exec_insert_waitlist v now d)).
Hypothesis P_insert_users : forall v d, P d -> P (snd (exec_insert_users v d)).

Lemma invariant_interfere (s : Sys) : P (db s) -> P (db (snd (interfere s))).
Proof.
  unfold interfere. destruct (env s) as [|[|dt|v|e] rest]; simpl; auto.
Qed.

Lemma invariant_await {A : Type} (q : Query)
    (exec : Z -> Database -> Outcome A * Database) :
  (forall now d, P d -> P (snd (exec now d))) ->
  maintains (fun s => P (db s)) (await q exec).
Proof.
  intros Hexec s Hs. rewrite await_cases.
  pose proof (invariant_interfere (log_query q s) Hs) as H1.
  destruct (fst (interfere (log_query q s))); simpl; [exact H1 | apply Hexec, H1].
Qed.

Lemma invariant_after_call (c : StorageCall) (s : Sys) :
  P (db s) -> P (db (after_call c s)).
Proof.
  intros Hs. destruct c; simpl;
    (apply (maintains_bind (fun s => P (db s))); [|intros; apply maintains_ret | exact Hs]);
    apply invariant_await; intros now d Hd;
    rewrite ?exec_select_users_by_id_snd, ?exec_select_users_by_username_snd,
      ?exec_select_waitlist_snd; auto.
Qed.

Lemma invariant_registerRoutes (req : Request) :
  maintains (fun s => P (db s)) (registerRoutes req).
Proof.
  assert (Hcall : forall c s, P (db s) -> P (db (after_call c s)))
    by (intros; now apply invariant_after_call).
  destruct req as [req_body|]; simpl.
  - apply maintains_try_catch.
    + unfold post_api_waitlist_try.
      destruct (insertWaitlistRegistrationSchema_safeParse req_body) as [data|issues];
        [|apply maintains_ret].
      apply maintains_bind.
      * intros s. apply (Hcall (call_getWaitlistRegistrationByEmail _)).
      * intros [existing|]; [apply maintains_ret|].
        apply maintains_bind; [intros s; apply (Hcall (call_createWaitlistRegistration _))|].
        intros [registration|]; [apply maintains_ret | apply maintains_throw].
    + intros e s Hs. exact Hs.
  - apply maintains_try_catch.
    + apply maintains_bind; [intros s; apply (Hcall call_getWaitlistCount)|].
      intros; apply maintains_ret.
    + intros e s Hs. exact Hs.
Qed.

Lemma storage_reachable_invariant (s : Sys) :
  P empty_database -> storage_reachable s -> P (db s).
Proof.
  intros H0. induction 1 as [now e|s c _ IH|s req _ IH|s e _ IH].
  - exact H0.
  - apply invariant_after_call, IH.
  - apply invariant_registerRoutes, IH.
  - exact IH.
Qed.

End DatabaseInvariant.

Lemma exec_insert_users_eq (v : InsertUser.t) (d : Database) :
  exec_insert_users v d =
    if has_NUL (InsertUser.username v) || has_NUL (InsertUser.password v)
    then (Throw invalid_byte_sequence, d)
    else if existsb (fun u => String.eqb (User.username u)
                                (encode_utf8 (InsertUser.username v))) (users d)
    then (Throw (unique_violation "users_username_unique"), d)
    else if negb (Nat.leb (index_row_size (encode_utf8 (InsertUser.username v)))
                    BTMaxItemSize)
    then (Throw (index_row_too_large (encode_utf8 (InsertUser.username v))
                   "users_username_unique"), d)
    else (Return [new_user v d],
          {| users := users d ++ [new_user v d];
             waitlistRegistrations := waitlistRegistrations d |}).
Proof.
  unfold exec_insert_users. destruct (_ || _); [reflexivity|]. cbv zeta. simpl.
  rewrite (gen_random_uuid_fresh User.id). reflexivity.
Qed.

(** An insert of a user either leaves the database as it is, or appends
    the new user, whose username was not in the table. *)
Lemma exec_insert_users_cases (v : InsertUser.t) (d : Database) :
  (snd (exec_insert_users v d) = d /\ exists e, fst (exec_insert_users v d) = Throw e) \/
  (exec_insert_users v d =
     (Return [new_user v d],
      {| users := users d ++ [new_user v d];
         waitlistRegistrations := waitlistRegistrations d |}) /\
   has_NUL (InsertUser.username v) = false /\
   has_NUL (InsertUser.password v) = false /\
   ~ In (encode_utf8 (InsertUser.username v)) (User.username <$> users d)).
Proof.
  rewrite exec_insert_users_eq.
  destruct (has_NUL (InsertUser.username v)) eqn:E1; [left; simpl; eauto|].
  destruct (has_NUL (InsertUser.password v)) eqn:E2; [left; simpl; eauto|].
  simpl. destruct (existsb _ _) eqn:E; [left; simpl; eauto|].
  destruct (negb _); [left; simpl; eauto|].
  right. split; [reflexivity|]. split; [reflexivity|]. split; [reflexivity|].
  apply existsb_eqb_false in E. exact E.
Qed.

Lemma NoDup_snoc_fresh (l : list string) (x : string) :
  NoDup l -> ~ In x l -> NoDup (l ++ [x]).
Proof.
  intros ND Hx. apply NoDup_app. split; [exact ND|]. split; [|apply NoDup_singleton].
  intros y Hy Hy'. apply list_elem_of_In in Hy'. simpl in Hy'.
  destruct Hy' as [<-|[]]. apply Hx. now apply list_elem_of_In.
Qed.

Lemma gen_random_uuid_not_in (keys : list string) : ~ In (gen_random_uuid keys) keys.
Proof. rewrite <- list_elem_of_In. apply infinite_is_fresh. Qed.

Lemma constraints_insert_waitlist (v : InsertWaitlistRegistration.t) (now : Z)
    (d : Database) :
  constraints_hold d -> constraints_hold (snd (exec_insert_waitlist v now d)).
Proof.
  intros (H1 & H2 & H3 & H4).
  destruct (exec_insert_waitlist_cases v now d) as [[-> _]|(-> & _ & E)];
    [repeat split; assumption|].
  unfold constraints_hold. simpl. rewrite !fmap_app. simpl.
  repeat split; try assumption.
  - apply NoDup_snoc_fresh; [exact H3 | apply gen_random_uuid_not_in].
  - apply NoDup_snoc_fresh; [exact H4 | exact E].
Qed.

Lemma constraints_insert_users (v : InsertUser.t) (d : Database) :
  constraints_hold d -> constraints_hold (snd (exec_insert_users v d)).
Proof.
  intros (H1 & H2 & H3 & H4).
  destruct (exec_insert_users_cases v d) as [[-> _]|(-> & _ & _ & E)];
    [repeat split; assumption|].
  unfold constraints_hold. simpl. rewrite !fmap_app. simpl.
  repeat split; try assumption.
  - apply NoDup_snoc_fresh; [exact H1 | apply gen_random_uuid_not_in].
  - apply NoDup_snoc_fresh; [exact H2 | exact E].
Qed.

(** X1. Whatever sequence of storage calls and requests a system has
    seen since it booted with empty tables, and whatever the environment
    did meanwhile, the identifiers of each table are pairwise distinct
    and so are the usernames and the registered emails. *)
Theorem storage_keeps_constraints (s : Sys) :
  storage_reachable s -> constraints_hold (db s).
Proof.
  apply (storage_reachable_invariant constraints_hold).
  - apply constraints_insert_waitlist.
  - apply constraints_insert_users.
  - repeat split; apply NoDup_nil_2.
Qed.

Lemma storage_keeps_constraints_witness :
  constraints_hold
    (db (after_call (call_createUser alan)
           (snd (registerRoutes (POST_api_waitlist (JObj ada_fields)) (boot 0 []))))).
Proof.
  apply storage_keeps_constraints.
  apply storage_call, storage_serve, storage_boot.
Defined.

(** ** A storage method is one awaited statement *)

Lemma set_db_same (s : Sys) : set_db (db s) s = s.
Proof. destruct s; reflexivity. Qed.

Lemma await_head_cases {A : Type} (q : Query)
    (exec : Z -> Database -> Outcome (list A) * Database) (s : Sys) :
  (rows ← await q exec; mret (head rows)) s =
    match fst (interfere (log_query q s)) with
    | Some e => (Throw e, snd (interfere (log_query q s)))
    | None =>
        (match fst (exec (clock (snd (interfere (log_query q s))))
                      (db (snd (interfere (log_query q s))))) with
         | Return rows => Return (head rows)
         | Throw e => Throw e
         end,
         set_db (snd (exec (clock (snd (interfere (log_query q s))))
                        (db (snd (interfere (log_query q s))))))
           (snd (interfere (log_query q s))))
    end.
Proof.
  unfold mbind, Async_bind. rewrite await_cases.
  destruct (fst (interfere _)); [reflexivity|].
  destruct (fst (exec _ _)); reflexivity.
Qed.

Lemma In_fmap_iff {A : Type} (f : A -> string) (x : string) (l : list A) :
  In x (f <$> l) <-> exists a, In a l /\ f a = x.
Proof.
  rewrite <- list_elem_of_In, list_elem_of_fmap.
  split; intros (a & H1 & H2); exists a; rewrite list_elem_of_In in *; auto.
Qed.

(** *** Generated identifiers are plain text *)

Lemma encode_utf8_cons (a : ascii) (s : string) :
  N_of_ascii a <> 237%N -> encode_utf8 (String a s) = String a (encode_utf8 s).
Proof.
  intros Ha. destruct s as [|b [|c s']]; try reflexivity.
  change (encode_utf8 (String a (String b (String c s'))))
    with (if is_lone_surrogate a b c
          then String "239"%char (String "191"%char (String "189"%char (encode_utf8 s')))
          else String a (encode_utf8 (String b (String c s')))).
  unfold is_lone_surrogate. apply N.eqb_neq in Ha. rewrite Ha. reflexivity.
Qed.

Lemma digits_stored_verbatim (s : string) : digits s -> stored_verbatim s.
Proof.
  unfold stored_verbatim.
  induction s as [|a s IH]; [auto|]. intros [Ha Hs]. destruct (IH Hs) as [H1 H2].
  split.
  - simpl. rewrite H1, orb_false_r. apply Ascii.eqb_neq. intros ->.
    destruct Ha as [Ha _]. exact (Ha eq_refl).
  - assert (Hne : N_of_ascii a <> 237%N) by lia.
    rewrite (encode_utf8_cons a s Hne). now rewrite H2.
Qed.

Lemma pretty_N_char_digit (x : N) : (48 <= N_of_ascii (pretty_N_char x) <= 57)%N.
Proof.
  unfold pretty_N_char. repeat case_match; vm_compute; split; discriminate.
Qed.

Lemma pretty_N_go_digits (x : N) (s : string) : digits s -> digits (pretty_N_go x s).
Proof.
  revert s. induction (N.lt_wf_0 x) as [x _ IH]. intros s Hs.
  destruct (decide (x = 0)%N) as [->|Hx].
  - now rewrite pretty_N_go_0.
  - rewrite pretty_N_go_step by lia. apply IH.
    + apply N.div_lt; lia.
    + split; [|exact Hs]. apply pretty_N_char_digit.
Qed.

Lemma pretty_nat_digits (n : nat) : digits (pretty n).
Proof.
  unfold pretty, pretty_nat, pretty, pretty_N. case_decide.
  - split; [vm_compute; split; discriminate | exact I].
  - apply pretty_N_go_digits. exact I.
Qed.

Lemma search_infinite_go_pretty (xs : list string) (n : nat)
    (acc : Acc (fun n1 n2 : nat => (n2 < n1)%nat /\ pretty (n1 - 1)%nat ∈ xs) n) :
  exists m : nat, Fix_F (fun _ => string) (search_infinite_go pretty xs) acc = pretty m.
Proof.
  revert n acc. fix FIX 2. intros n [acc]. simpl. unfold search_infinite_go at 1.
  destruct (decide _) as [Hin|Hnin]; [apply FIX | eauto].
Qed.

Lemma gen_random_uuid_stored_verbatim (keys : list string) :
  stored_verbatim (gen_random_uuid keys).
Proof.
  unfold gen_random_uuid.
  destruct (search_infinite_go_pretty keys 0%nat
              (wf_guard 32 (search_infinite_R_wf pretty keys) 0%nat)) as [m Hm].
  change (fresh keys) with
    (Fix_F (fun _ => string) (search_infinite_go pretty keys)
       (wf_guard 32 (search_infinite_R_wf pretty keys) 0%nat)).
  rewrite Hm. apply digits_stored_verbatim, pretty_nat_digits.
Qed.

(** ** Registrations through the storage class *)

(** X2. Without interference the lookup by email changes nothing in the
    database. For an email without a zero byte it never throws; it
    returns [undefined] exactly when no row has that email as the
    database stores it, and a row it returns is a row of the table with
    exactly that email. An email with a zero byte makes it throw
    PostgreSQL's error 22021. *)
Theorem lookup_by_email_contract (em : string) (s : Sys) :
  env s = [] ->
  snd (getWaitlistRegistrationByEmail em s) = log_query (select_waitlist_by_email em) s /\
  (has_NUL em = false ->
   (exists found, fst (getWaitlistRegistrationByEmail em s) = Return found) /\
   (fst (getWaitlistRegistrationByEmail em s) = Return None <->
    ~ email_registered (encode_utf8 em) s) /\
   (forall r, fst (getWaitlistRegistrationByEmail em s) = Return (Some r) ->
              In r (waitlistRegistrations (db s)) /\
              WaitlistRegistration.email r = encode_utf8 em)) /\
  (has_NUL em = true ->
   exists e, fst (getWaitlistRegistrationByEmail em s) = Throw e /\ err_code e = "22021").
Proof.
  intros He. unfold getWaitlistRegistrationByEmail.
  rewrite await_head_cases, interfere_quiet by exact He. simpl.
  unfold exec_select_waitlist_by_email.
  destruct (has_NUL em); simpl.
  - split; [reflexivity|]. split; [discriminate|]. intros _. eauto.
  - split; [reflexivity|]. split; [|discriminate]. intros _.
    destruct (head_filter_eqb WaitlistRegistration.email (encode_utf8 em)
                (waitlistRegistrations (db s))) as [Hnone Hsome].
    split; [eauto|]. split.
    + unfold email_registered. rewrite <- In_fmap_iff, <- Hnone.
      split; [intros [= ->]; reflexivity | intros ->; reflexivity].
    + intros r [= Hr]. apply Hsome, Hr.
Qed.

Lemma lookup_by_email_contract_witness :
  fst (getWaitlistRegistrationByEmail "grace@example.com" ada_registered) = Return None /\
  (exists r, fst (getWaitlistRegistrationByEmail "ada@example.com" ada_registered) =
               Return (Some r) /\
             WaitlistRegistration.firstName r = "Ada") /\
  exists e, fst (getWaitlistRegistrationByEmail (String "000"%char "ada@example.com")
                   ada_registered) = Throw e /\
            err_code e = "22021".
Proof.
  split; [|split].
  - destruct (lookup_by_email_contract "grace@example.com" ada_registered eq_refl)
      as (_ & Hclean & _).
    destruct (Hclean eq_refl) as (_ & Hnone & _).
    apply Hnone. intros (r & Hin & Hem). vm_compute in Hin.
    destruct Hin as [<-|[]]. discriminate Hem.
  - destruct (lookup_by_email_contract "ada@example.com" ada_registered eq_refl)
      as (_ & Hclean & _).
    destruct (Hclean eq_refl) as ((found & Hfound) & _ & _).
    eexists. split; [vm_compute; reflexivity | reflexivity].
  - destruct (lookup_by_email_contract (String "000"%char "ada@example.com")
                ada_registered eq_refl) as (_ & _ & Hnul).
    exact (Hnul eq_refl).
Defined.

(** X3. A registration that [createWaitlistRegistration] returns holds
    the three values as the database stores them (the values themselves
    when they are stored verbatim), none of which has a zero byte, and a
    later lookup of the email it was created with returns that very
    registration: always without interference, and under interference
    unless the lookup itself fails. *)
Theorem created_registration_is_found (v : InsertWaitlistRegistration.t) (s s1 : Sys)
    (registration : option WaitlistRegistration.t) :
  createWaitlistRegistration v s = (Return registration, s1) ->
  exists row,
    registration = Some row /\
    accepted_text v /\
    WaitlistRegistration.firstName row =
      encode_utf8 (InsertWaitlistRegistration.firstName v) /\
    WaitlistRegistration.lastName row =
      encode_utf8 (InsertWaitlistRegistration.lastName v) /\
    WaitlistRegistration.email row = encode_utf8 (InsertWaitlistRegistration.email v) /\
    fst (getWaitlistRegistrationByEmail (InsertWaitlistRegistration.email v)
           (set_env [] s1)) = Return (Some row) /\
    forall e : list EnvAction,
      fst (getWaitlistRegistrationByEmail (InsertWaitlistRegistration.email v)
             (set_env e s1)) = Return (Some row) \/
      exists err,
        fst (getWaitlistRegistrationByEmail (InsertWaitlistRegistration.email v)
               (set_env e s1)) = Throw err.
Proof.
  intros Hcreate. unfold createWaitlistRegistration in Hcreate.
  rewrite await_head_cases in Hcreate.
  destruct (fst (interfere _)); [discriminate|].
  set (s0 := snd (interfere (log_query (insert_waitlist v) s))) in *.
  destruct (exec_insert_waitlist_cases v (clock s0) (db s0))
    as [[_ [e He]]|(Hex & Htext & E)].
  { rewrite He in Hcreate. discriminate. }
  rewrite Hex in Hcreate. simpl in Hcreate. injection Hcreate as <- <-.
  exists (new_row v (clock s0) (db s0)).
  assert (Hany : forall e : list EnvAction,
            fst (getWaitlistRegistrationByEmail (InsertWaitlistRegistration.email v)
                   (set_env e (set_db
                      {| users := users (db s0);
                         waitlistRegistrations :=
                           waitlistRegistrations (db s0) ++ [new_row v (clock s0) (db s0)] |}
                      s0))) = Return (Some (new_row v (clock s0) (db s0))) \/
            exists err,
              fst (getWaitlistRegistrationByEmail (InsertWaitlistRegistration.email v)
                     (set_env e (set_db
                        {| users := users (db s0);
                           waitlistRegistrations :=
                             waitlistRegistrations (db s0) ++
                               [new_row v (clock s0) (db s0)] |}
                        s0))) = Throw err).
  { intros e. unfold getWaitlistRegistrationByEmail. rewrite await_head_cases.
    destruct (interfere_rows (log_query
                (select_waitlist_by_email (InsertWaitlistRegistration.email v))
                (set_env e (set_db
                   {| users := users (db s0);
                      waitlistRegistrations :=
                        waitlistRegistrations (db s0) ++ [new_row v (clock s0) (db s0)] |}
                   s0)))) as [added Hadded].
    destruct (fst (interfere _)) as [err|]; simpl; [right; eauto | left].
    rewrite exec_select_waitlist_eq by apply Htext. simpl.
    rewrite Hadded. simpl.
    rewrite !List.filter_app, (filter_eqb_absent _ _ _ E). simpl.
    rewrite String.eqb_refl. reflexivity. }
  split; [reflexivity|]. split; [exact Htext|].
  split; [reflexivity|]. split; [reflexivity|]. split; [reflexivity|].
  split; [|exact Hany].
  destruct (Hany []) as [H|[err H]]; [exact H|].
  unfold getWaitlistRegistrationByEmail in H.
  rewrite await_head_cases, interfere_quiet in H by reflexivity. simpl in H.
  rewrite exec_select_waitlist_eq in H by apply Htext. discriminate H.
Qed.

Lemma created_registration_is_found_witness :
  exists row,
    fst (getWaitlistRegistrationByEmail "ada@example.com"
           (set_env []
              (snd (createWaitlistRegistration
                      (InsertWaitlistRegistration.mk "Ada" "Lovelace" "ada@example.com")
                      (boot 0 [])))))
      = Return (Some row) /\
    WaitlistRegistration.firstName row = "Ada".
Proof.
  destruct (created_registration_is_found
              (InsertWaitlistRegistration.mk "Ada" "Lovelace" "ada@example.com")
              (boot 0 [])
              (snd (createWaitlistRegistration
                      (InsertWaitlistRegistration.mk "Ada" "Lovelace" "ada@example.com")
                      (boot 0 [])))
              (Some (WaitlistRegistration.mk "0" "Ada" "Lovelace" "ada@example.com" 0)))
    as (row & _ & _ & Hf & _ & _ & Hfound & _).
  - vm_compute. reflexivity.
  - exists row. split; [exact Hfound | exact Hf].
Defined.

(** X4. The store itself refuses a second registration of an email:
    [createWaitlistRegistration] with an email that, as the database
    stores it, is in the table never returns, whatever the environment
    does. Without interference it throws and leaves the database as it
    was, and when none of the three values has a zero byte what it throws
    is PostgreSQL's error 23505 for the unique constraint on [email]. *)
Theorem duplicate_email_rejected_by_store (v : InsertWaitlistRegistration.t) (s : Sys) :
  email_registered (encode_utf8 (InsertWaitlistRegistration.email v)) s ->
  (forall registration s', createWaitlistRegistration v s <> (Return registration, s')) /\
  (env s = [] ->
   exists e,
     createWaitlistRegistration v s = (Throw e, log_query (insert_waitlist v) s) /\
     (accepted_text v ->
      err_code e = "23505" /\
      err_constraint e = Some "waitlist_registrations_email_unique")).
Proof.
  intros Hreg.
  assert (Hany : forall (now : Z) (d : Database),
            (exists added,
               waitlistRegistrations d = waitlistRegistrations (db s) ++ added) ->
            snd (exec_insert_waitlist v now d) = d /\
            exists e,
              fst (exec_insert_waitlist v now d) = Throw e /\
              (accepted_text v ->
               err_code e = "23505" /\
               err_constraint e = Some "waitlist_registrations_email_unique")).
  { intros now d [added Hadded].
    assert (Hin : In (encode_utf8 (InsertWaitlistRegistration.email v))
                    (WaitlistRegistration.email <$> waitlistRegistrations d)).
    { apply In_fmap_email. destruct Hreg as (r & Hin & Hem). exists r.
      split; [|exact Hem]. rewrite Hadded. apply in_or_app. now left. }
    rewrite exec_insert_waitlist_eq.
    destruct (has_NUL (InsertWaitlistRegistration.firstName v)) eqn:E1;
      [simpl; split; [reflexivity|]; eexists; split; [reflexivity|];
       intros (H & _); congruence|].
    destruct (has_NUL (InsertWaitlistRegistration.lastName v)) eqn:E2;
      [simpl; split; [reflexivity|]; eexists; split; [reflexivity|];
       intros (_ & H & _); congruence|].
    destruct (has_NUL (InsertWaitlistRegistration.email v)) eqn:E3;
      [simpl; split; [reflexivity|]; eexists; split; [reflexivity|];
       intros (_ & _ & H); congruence|].
    simpl. destruct (existsb _ _) eqn:E.
    - simpl. split; [reflexivity|]. eexists. split; [reflexivity|]. auto.
    - apply existsb_eqb_false in E. destruct (E Hin). }
  split.
  - intros registration s'. unfold createWaitlistRegistration.
    rewrite await_head_cases. destruct (fst (interfere _)); [discriminate|].
    destruct (Hany (clock (snd (interfere (log_query (insert_waitlist v) s))))
                (db (snd (interfere (log_query (insert_waitlist v) s)))))
      as (_ & e & -> & _); [|discriminate].
    apply (interfere_rows (log_query (insert_waitlist v) s)).
  - intros He. unfold createWaitlistRegistration.
    rewrite await_head_cases, interfere_quiet by exact He. simpl.
    destruct (Hany (clock s) (db s)) as (Hdb & e & Hthrow & Hcode).
    { exists []. now rewrite app_nil_r. }
    exists e. rewrite Hthrow, Hdb. split; [reflexivity | exact Hcode].
Qed.

Lemma duplicate_email_rejected_by_store_witness :
  exists e,
    fst (createWaitlistRegistration
           (InsertWaitlistRegistration.mk "Grace" "Hopper" "ada@example.com")
           ada_registered) = Throw e /\
    err_code e = "23505" /\
    db (snd (createWaitlistRegistration
               (InsertWaitlistRegistration.mk "Grace" "Hopper" "ada@example.com")
               ada_registered)) = db ada_registered.
Proof.
  assert (Hreg : email_registered "ada@example.com" ada_registered).
  { exists (WaitlistRegistration.mk (gen_random_uuid []) "Ada" "Lovelace"
              "ada@example.com" 0).
    split; [vm_compute; left; reflexivity | reflexivity]. }
  destruct (duplicate_email_rejected_by_store
              (InsertWaitlistRegistration.mk "Grace" "Hopper" "ada@example.com")
              ada_registered Hreg) as (_ & Hquiet).
  destruct (Hquiet eq_refl) as (e & Hrun & Hcode).
  destruct Hcode as (Hcode & _); [repeat split; reflexivity|].
  exists e. rewrite Hrun. split; [reflexivity|]. split; [exact Hcode | reflexivity].
Defined.

(** ** Users through the storage class *)

(** X5. A user that [createUser] returns has a generated id that no
    earlier user has, and holds the username and the password as the
    database stores them (the strings themselves when they are stored
    verbatim), neither of which has a zero byte. A later lookup by the
    username it was created with, or by its id, returns this very user:
    always without interference, and under interference unless the
    lookup itself fails. *)
Theorem created_user_is_found (v : InsertUser.t) (s s1 : Sys) (created : option User.t) :
  createUser v s = (Return created, s1) ->
  exists user,
    created = Some user /\
    has_NUL (InsertUser.username v) = false /\
    has_NUL (InsertUser.password v) = false /\
    User.username user = encode_utf8 (InsertUser.username v) /\
    User.password user = encode_utf8 (InsertUser.password v) /\
    ~ user_id_known (User.id user) s /\
    fst (getUserByUsername (InsertUser.username v) (set_env [] s1)) = Return (Some user) /\
    fst (getUser (User.id user) (set_env [] s1)) = Return (Some user) /\
    forall e : list EnvAction,
      (fst (getUserByUsername (InsertUser.username v) (set_env e s1)) = Return (Some user) \/
       exists err,
         fst (getUserByUsername (InsertUser.username v) (set_env e s1)) = Throw err) /\
      (fst (getUser (User.id user) (set_env e s1)) = Return (Some user) \/
       exists err, fst (getUser (User.id user) (set_env e s1)) = Throw err).
Proof.
  intros Hcreate. unfold createUser in Hcreate. rewrite await_head_cases in Hcreate.
  destruct (fst (interfere _)); [discriminate|].
  set (s0 := snd (interfere (log_query (insert_users v) s))) in *.
  assert (Hu0 : users (db s0) = users (db s))
    by apply (interfere_users (log_query (insert_users v) s)).
  destruct (exec_insert_users_cases v (db s0)) as [[_ [e He]]|(Hex & Hn1 & Hn2 & E)].
  { rewrite He in Hcreate. discriminate. }
  rewrite Hex in Hcreate. simpl in Hcreate. injection Hcreate as <- <-.
  set (user := new_user v (db s0)).
  assert (Hid : ~ In (gen_random_uuid (User.id <$> users (db s0)))
                  (User.id <$> users (db s0)))
    by apply gen_random_uuid_not_in.
  destruct (gen_random_uuid_stored_verbatim (User.id <$> users (db s0))) as [Hidn Hide].
  assert (Hname : forall e : list EnvAction,
            fst (getUserByUsername (InsertUser.username v)
                   (set_env e (set_db
                      {| users := users (db s0) ++ [user];
                         waitlistRegistrations := waitlistRegistrations (db s0) |} s0))) =
              Return (Some user) \/
            exists err,
              fst (getUserByUsername (InsertUser.username v)
                     (set_env e (set_db
                        {| users := users (db s0) ++ [user];
                           waitlistRegistrations := waitlistRegistrations (db s0) |} s0))) =
                Throw err).
  { intros e. unfold getUserByUsername. rewrite await_head_cases.
    pose proof (interfere_users (log_query
                  (select_users_by_username (InsertUser.username v))
                  (set_env e (set_db
                     {| users := users (db s0) ++ [user];
                        waitlistRegistrations := waitlistRegistrations (db s0) |} s0))))
      as Hu.
    destruct (fst (interfere _)) as [err|]; simpl; [right; eauto | left].
    unfold exec_select_users_by_username. rewrite Hn1. simpl. rewrite Hu. simpl.
    rewrite List.filter_app, (filter_eqb_absent User.username _ _ E). simpl.
    rewrite String.eqb_refl. reflexivity. }
  assert (Hbyid : forall e : list EnvAction,
            fst (getUser (User.id user)
                   (set_env e (set_db
                      {| users := users (db s0) ++ [user];
                         waitlistRegistrations := waitlistRegistrations (db s0) |} s0))) =
              Return (Some user) \/
            exists err,
              fst (getUser (User.id user)
                     (set_env e (set_db
                        {| users := users (db s0) ++ [user];
                           waitlistRegistrations := waitlistRegistrations (db s0) |} s0))) =
                Throw err).
  { intros e. unfold getUser. rewrite await_head_cases.
    pose proof (interfere_users (log_query (select_users_by_id (User.id user))
                  (set_env e (set_db
                     {| users := users (db s0) ++ [user];
                        waitlistRegistrations := waitlistRegistrations (db s0) |} s0))))
      as Hu.
    destruct (fst (interfere _)) as [err|]; simpl; [right; eauto | left].
    unfold exec_select_users_by_id.
    change (User.id user) with (gen_random_uuid (User.id <$> users (db s0))) in Hu |- *.
    rewrite Hidn. simpl. rewrite Hu. simpl.
    rewrite Hide, List.filter_app, (filter_eqb_absent User.id _ _ Hid). simpl.
    rewrite String.eqb_refl. reflexivity. }
  exists user.
  split; [reflexivity|]. split; [exact Hn1|]. split; [exact Hn2|].
  split; [reflexivity|]. split; [reflexivity|].
  split.
  { intros (u & Hin & Hu). apply Hid, In_fmap_iff. exists u.
    rewrite <- Hu0 in Hin. split; [exact Hin | exact Hu]. }
  split; [|split; [|intros e; split; [apply Hname | apply Hbyid]]].
  - destruct (Hname []) as [H|[err H]]; [exact H|].
    unfold getUserByUsername in H.
    rewrite await_head_cases, interfere_quiet in H by reflexivity. simpl in H.
    unfold exec_select_users_by_username in H. rewrite Hn1 in H. discriminate H.
  - destruct (Hbyid []) as [H|[err H]]; [exact H|].
    unfold getUser in H.
    rewrite await_head_cases, interfere_quiet in H by reflexivity. simpl in H.
    unfold exec_select_users_by_id in H.
    change (User.id user) with (gen_random_uuid (User.id <$> users (db s0))) in H.
    rewrite Hidn in H. discriminate H.
Qed.

Lemma created_user_is_found_witness :
  exists user,
    fst (getUserByUsername "alan" (set_env [] (snd (createUser alan (boot 0 []))))) =
      Return (Some user) /\
    User.password user = "enigma".
Proof.
  destruct (created_user_is_found alan (boot 0 []) (snd (createUser alan (boot 0 [])))
              (Some (User.mk "0" "alan" "enigma")))
    as (user & _ & _ & _ & _ & Hpw & _ & Hfound & _).
  - vm_compute. reflexivity.
  - exists user. split; [exact Hfound | exact Hpw].
Defined.

(** X6. The store refuses a second user with a username that is taken:
    [createUser] with a username that, as the database stores it, is in
    the table never returns, whatever the environment does. Without
    interference it throws and leaves the database as it was, and when
    neither value has a zero byte what it throws is PostgreSQL's error
    23505 for the unique constraint on [username]. *)
Theorem duplicate_username_rejected_by_store (v : InsertUser.t) (s : Sys) :
  username_taken (encode_utf8 (InsertUser.username v)) s ->
  (forall created s', createUser v s <> (Return created, s')) /\
  (env s = [] ->
   exists e,
     createUser v s = (Throw e, log_query (insert_users v) s) /\
     (has_NUL (InsertUser.username v) = false ->
      has_NUL (InsertUser.password v) = false ->
      err_code e = "23505" /\ err_constraint e = Some "users_username_unique")).
Proof.
  intros Htaken.
  assert (Hany : forall d : Database,
            users d = users (db s) ->
            snd (exec_insert_users v d) = d /\
            exists e,
              fst (exec_insert_users v d) = Throw e /\
              (has_NUL (InsertUser.username v) = false ->
               has_NUL (InsertUser.password v) = false ->
               err_code e = "23505" /\ err_constraint e = Some "users_username_unique")).
  { intros d Hd.
    assert (Hin : In (encode_utf8 (InsertUser.username v)) (User.username <$> users d))
      by (rewrite Hd; apply In_fmap_iff, Htaken).
    rewrite exec_insert_users_eq.
    destruct (has_NUL (InsertUser.username v)) eqn:E1;
      [simpl; split; [reflexivity|]; eexists; split; [reflexivity|];
       intros H; congruence|].
    destruct (has_NUL (InsertUser.password v)) eqn:E2;
      [simpl; split; [reflexivity|]; eexists; split; [reflexivity|];
       intros _ H; congruence|].
    simpl. destruct (existsb _ _) eqn:E.
    - simpl. split; [reflexivity|]. eexists. split; [reflexivity|]. auto.
    - apply existsb_eqb_false in E. destruct (E Hin). }
  split.
  - intros created s'. unfold createUser. rewrite await_head_cases.
    destruct (fst (interfere _)); [discriminate|].
    destruct (Hany (db (snd (interfere (log_query (insert_users v) s)))))
      as (_ & e & -> & _); [|discriminate].
    apply (interfere_users (log_query (insert_users v) s)).
  - intros He. unfold createUser.
    rewrite await_head_cases, interfere_quiet by exact He. simpl.
    destruct (Hany (db s) eq_refl) as (Hdb & e & Hthrow & Hcode).
    exists e. rewrite Hthrow, Hdb. split; [reflexivity | exact Hcode].
Qed.

Lemma duplicate_username_rejected_by_store_witness :
  exists e,
    fst (createUser (InsertUser.mk "alan" "bombe") (snd (createUser alan (boot 0 [])))) =
      Throw e /\
    err_constraint e = Some "users_username_unique".
Proof.
  destruct (duplicate_username_rejected_by_store (InsertUser.mk "alan" "bombe")
              (snd (createUser alan (boot 0 [])))) as (_ & Hquiet).
  - exists (User.mk "0" "alan" "enigma"). split; [vm_compute; left|]; reflexivity.
  - destruct (Hquiet eq_refl) as (e & Hrun & Hcode).
    destruct (Hcode eq_refl eq_refl) as (_ & Hconstraint).
    exists e. rewrite Hrun. split; [reflexivity | exact Hconstraint].
Defined.

(** X7. Without interference the two lookups of users change nothing in
    the database. For an argument without a zero byte each of them never
    throws, returns [undefined] exactly when no user has that id,
    respectively that username, as the database stores it, and a user it
    returns is a user of the table with exactly that id, respectively
    that username. An argument with a zero byte makes them throw
    PostgreSQL's error 22021. *)
Theorem user_lookup_contract (s : Sys) :
  env s = [] ->
  (forall id : string,
     snd (getUser id s) = log_query (select_users_by_id id) s /\
     (has_NUL id = false ->
      (exists found, fst (getUser id s) = Return found) /\
      (fst (getUser id s) = Return None <-> ~ user_id_known (encode_utf8 id) s) /\
      (forall u, fst (getUser id s) = Return (Some u) ->
                 In u (users (db s)) /\ User.id u = encode_utf8 id)) /\
     (has_NUL id = true ->
      exists e, fst (getUser id s) = Throw e /\ err_code e = "22021")) /\
  (forall username : string,
     snd (getUserByUsername username s) =
       log_query (select_users_by_username username) s /\
     (has_NUL username = false ->
      (exists found, fst (getUserByUsername username s) = Return found) /\
      (fst (getUserByUsername username s) = Return None <->
       ~ username_taken (encode_utf8 username) s) /\
      (forall u, fst (getUserByUsername username s) = Return (Some u) ->
                 In u (users (db s)) /\ User.username u = encode_utf8 username)) /\
     (has_NUL username = true ->
      exists e, fst (getUserByUsername username s) = Throw e /\ err_code e = "22021")).
Proof.
  intros He. split.
  - intros id. unfold getUser.
    rewrite await_head_cases, interfere_quiet by exact He. simpl.
    unfold exec_select_users_by_id. destruct (has_NUL id); simpl.
    + split; [reflexivity|]. split; [discriminate|]. intros _. eauto.
    + split; [reflexivity|]. split; [|discriminate]. intros _.
      destruct (head_filter_eqb User.id (encode_utf8 id) (users (db s)))
        as [Hnone Hsome].
      split; [eauto|]. split.
      * unfold user_id_known. rewrite <- In_fmap_iff, <- Hnone.
        split; [intros [= ->]; reflexivity | intros ->; reflexivity].
      * intros u [= Hu]. apply Hsome, Hu.
  - intros username. unfold getUserByUsername.
    rewrite await_head_cases, interfere_quiet by exact He. simpl.
    unfold exec_select_users_by_username. destruct (has_NUL username); simpl.
    + split; [reflexivity|]. split; [discriminate|]. intros _. eauto.
    + split; [reflexivity|]. split; [|discriminate]. intros _.
      destruct (head_filter_eqb User.username (encode_utf8 username) (users (db s)))
        as [Hnone Hsome].
      split; [eauto|]. split.
      * unfold username_taken. rewrite <- In_fmap_iff, <- Hnone.
        split; [intros [= ->]; reflexivity | intros ->; reflexivity].
      * intros u [= Hu]. apply Hsome, Hu.
Qed.

Lemma user_lookup_contract_witness :
  fst (getUser "no-such-id" (snd (createUser alan (boot 0 [])))) = Return None /\
  fst (getUserByUsername "grace" (snd (createUser alan (boot 0 [])))) = Return None /\
  exists e, fst (getUserByUsername (String "000"%char "alan")
                   (snd (createUser alan (boot 0 [])))) = Throw e /\
            err_code e = "22021".
Proof.
  destruct (user_lookup_contract (snd (createUser alan (boot 0 []))) eq_refl) as [Hid Hname].
  split; [|split].
  - destruct (Hid "no-such-id") as (_ & Hclean & _).
    destruct (Hclean eq_refl) as (_ & Hnone & _). apply Hnone.
    intros (u & Hin & Hu). vm_compute in Hin. destruct Hin as [<-|[]]. discriminate Hu.
  - destruct (Hname "grace") as (_ & Hclean & _).
    destruct (Hclean eq_refl) as (_ & Hnone & _). apply Hnone.
    intros (u & Hin & Hu). vm_compute in Hin. destruct Hin as [<-|[]]. discriminate Hu.
  - destruct (Hname (String "000"%char "alan")) as (_ & _ & Hnul).
    exact (Hnul eq_refl).
Defined.

(** X8. Every method of the storage class makes exactly one round trip,
    with its own statement, and writes nothing to the console, whatever
    the environment does. The lookups and the count never change the
    [users] table, the methods on registrations never do either, and
    without interference a lookup or a count leaves the whole database
    as it was and a method on users leaves the registrations as they
    were. *)
Theorem storage_call_one_round_trip (c : StorageCall) (s : Sys) :
  queries (after_call c s) = queries s ++ [query_of c] /\
  console (after_call c s) = console s /\
  (is_insert (query_of c) = false \/ table_of (query_of c) = waitlist_registrations_table ->
   users (db (after_call c s)) = users (db s)) /\
  (env s = [] ->
   (is_insert (query_of c) = false -> db (after_call c s) = db s) /\
   (table_of (query_of c) = users_table ->
    waitlistRegistrations (db (after_call c s)) = waitlistRegistrations (db s))).
Proof.
  split; [|split; [|split]].
  - rewrite after_call_await. destruct c; apply await_queries.
  - rewrite after_call_await. destruct c; apply await_console.
  - intros H. destruct c; simpl in *.
    + unfold getUser. rewrite await_head_cases.
      destruct (fst (interfere _)); simpl; rewrite ?exec_select_users_by_id_snd;
        exact (interfere_users (log_query (select_users_by_id id) s)).
    + unfold getUserByUsername. rewrite await_head_cases.
      destruct (fst (interfere _)); simpl; rewrite ?exec_select_users_by_username_snd;
        exact (interfere_users (log_query (select_users_by_username username) s)).
    + destruct H; discriminate.
    + apply (db_users _ _ (evolves_db _ _ (preserves_getWaitlistRegistrationByEmail _ s))).
    + apply (db_users _ _ (evolves_db _ _ (preserves_createWaitlistRegistration _ s))).
    + apply (db_users _ _ (evolves_db _ _ (preserves_getWaitlistCount s))).
  - intros He. split.
    + intros Hread. rewrite after_call_await.
      destruct c; simpl in Hread; try discriminate;
        rewrite await_quiet by exact He; simpl;
        rewrite ?exec_select_users_by_id_snd, ?exec_select_users_by_username_snd,
          ?exec_select_waitlist_snd; reflexivity.
    + intros Htable. rewrite after_call_await.
      destruct c; simpl in Htable; try discriminate;
        rewrite await_quiet by exact He; simpl;
        rewrite ?exec_select_users_by_id_snd, ?exec_select_users_by_username_snd;
        try reflexivity.
      destruct (exec_insert_users_cases insertUser (db s)) as [[-> _]|(-> & _)];
        reflexivity.
Qed.

Lemma storage_call_one_round_trip_witness :
  db (after_call (call_getUserByUsername "alan") ada_registered) = db ada_registered /\
  waitlistRegistrations (db (after_call (call_createUser alan) ada_registered)) =
    waitlistRegistrations (db ada_registered).
Proof.
  split.
  - destruct (storage_call_one_round_trip (call_getUserByUsername "alan") ada_registered)
      as (_ & _ & _ & H).
    destruct (H eq_refl) as [Hread _]. apply Hread. reflexivity.
  - destruct (storage_call_one_round_trip (call_createUser alan) ada_registered)
      as (_ & _ & _ & H).
    destruct (H eq_refl) as [_ Husers]. apply Husers. reflexivity.
Defined.

(** ** The signup handler under any environment *)

Lemma getWaitlistRegistrationByEmail_queries (em : string) (s : Sys) :
  queries (snd (getWaitlistRegistrationByEmail em s)) =
    queries s ++ [select_waitlist_by_email em].
Proof.
  change (snd (getWaitlistRegistrationByEmail em s))
    with (after_call (call_getWaitlistRegistrationByEmail em) s).
  rewrite after_call_await. apply await_queries.
Qed.

Lemma createWaitlistRegistration_queries (v : InsertWaitlistRegistration.t) (s : Sys) :
  queries (snd (createWaitlistRegistration v s)) = queries s ++ [insert_waitlist v].
Proof.
  change (snd (createWaitlistRegistration v s))
    with (after_call (call_createWaitlistRegistration v) s).
  rewrite after_call_await. apply await_queries.
Qed.

Lemma after_call_console (c : StorageCall) (s : Sys) :
  console (after_call c s) = console s.
Proof. rewrite after_call_await. destruct c; apply await_console. Qed.

(** X9. What the signup handler answers and sends, whatever the
    environment does. A body that is not an object with the three fields
    as strings gets 400 and the system stays exactly as it was. Any other
    body leads to the lookup of its email and then either to 409 or 500
    with nothing more sent, or to the insert of its three values and 201
    or 500: no insert is ever sent without the lookup before it. *)
Theorem post_outcomes (req_body : json) (s : Sys) :
  exists (resp : Response) (s' : Sys) (sent : list Query),
    post_api_waitlist req_body s = (Return resp, s') /\
    queries s' = queries s ++ sent /\
    ((~ (exists fields fn ln em, req_body = JObj fields /\ payload fn ln em fields) /\
      status resp = 400 /\ sent = [] /\ s' = s) \/
     (exists fields fn ln em,
        req_body = JObj fields /\ payload fn ln em fields /\
        ((sent = [select_waitlist_by_email em] /\
          (status resp = 409 \/ status resp = 500)) \/
         (sent = [select_waitlist_by_email em;
                  insert_waitlist (InsertWaitlistRegistration.mk fn ln em)] /\
          (status resp = 201 \/ status resp = 500))))).
Proof.
  destruct (insertWaitlistRegistrationSchema_safeParse req_body) as [data|issues] eqn:E.
  - destruct (safeParse_success_inv _ _ E) as (fields & -> & Hp).
    destruct data as [fn ln em]. simpl in Hp.
    rewrite (post_api_waitlist_cases _ _ s E). simpl.
    pose proof (getWaitlistRegistrationByEmail_queries em s) as Hq1.
    destruct (getWaitlistRegistrationByEmail em s) as [[[existing|]|e] s1]; simpl in Hq1.
    + exists already_registered, s1, [select_waitlist_by_email em].
      split; [reflexivity|]. split; [exact Hq1|]. right.
      exists fields, fn, ln, em. split; [reflexivity|]. split; [exact Hp|].
      left. split; [reflexivity|]. left. reflexivity.
    + pose proof (createWaitlistRegistration_queries
                    (InsertWaitlistRegistration.mk fn ln em) s1) as Hq2.
      assert (Hsent : forall s2 : Sys,
                queries s2 = queries s1 ++ [insert_waitlist
                                              (InsertWaitlistRegistration.mk fn ln em)] ->
                queries s2 =
                  queries s ++ [select_waitlist_by_email em;
                                insert_waitlist (InsertWaitlistRegistration.mk fn ln em)]).
      { intros s2 H. rewrite H, Hq1, <- app_assoc. reflexivity. }
      destruct (createWaitlistRegistration _ s1) as [[[registration|]|e] s2];
        simpl in Hq2; eexists; eexists; eexists;
        (split; [reflexivity|]); (split; [apply Hsent, Hq2|]); right;
        exists fields, fn, ln, em; (split; [reflexivity|]); (split; [exact Hp|]);
        right; (split; [reflexivity|]); simpl; auto.
    + exists internal_server_error, (log_error "Error creating waitlist registration:" e s1),
        [select_waitlist_by_email em].
      split; [reflexivity|]. split; [exact Hq1|]. right.
      exists fields, fn, ln, em. split; [reflexivity|]. split; [exact Hp|].
      left. split; [reflexivity|]. right. reflexivity.
  - rewrite (post_api_waitlist_invalid _ issues s E).
    exists (validation_failed issues), s, []. split; [reflexivity|].
    split; [now rewrite app_nil_r|]. left. split; [|auto].
    intros (fields & fn & ln & em & -> & Hp).
    rewrite (safeParse_payload fields fn ln em Hp) in E. discriminate E.
Qed.

(** X10. Both handlers write to the server console exactly when they
    answer 500: then one entry is added, under the label of the handler,
    and otherwise the console is as it was. *)
Theorem server_errors_are_logged (req : Request) (s : Sys) :
  exists (resp : Response) (s' : Sys),
    registerRoutes req s = (Return resp, s') /\
    ((status resp = 500 /\
      exists e,
        console s' =
          console s ++
            [(match req with
              | POST_api_waitlist _ => "Error creating waitlist registration:"
              | GET_api_waitlist_count => "Error getting waitlist count:"
              end, e)]) \/
     (status resp <> 500 /\ console s' = console s)).
Proof.
  destruct req as [req_body|]; simpl.
  - destruct (insertWaitlistRegistrationSchema_safeParse req_body) as [data|issues] eqn:E.
    + rewrite (post_api_waitlist_cases _ _ s E).
      pose proof (after_call_console
                    (call_getWaitlistRegistrationByEmail
                       (InsertWaitlistRegistration.email data)) s) as Hc1.
      simpl in Hc1.
      destruct (getWaitlistRegistrationByEmail _ s) as [[[existing|]|e] s1]; simpl in Hc1.
      * eexists; eexists. split; [reflexivity|]. right. split; [discriminate | exact Hc1].
      * pose proof (after_call_console (call_createWaitlistRegistration data) s1) as Hc2.
        simpl in Hc2.
        destruct (createWaitlistRegistration data s1) as [[[registration|]|e] s2];
          simpl in Hc2; eexists; eexists; (split; [reflexivity|]).
        -- right. split; [discriminate | congruence].
        -- left. split; [reflexivity|]. eexists. simpl. rewrite Hc2, Hc1. reflexivity.
        -- left. split; [reflexivity|]. eexists. simpl. rewrite Hc2, Hc1. reflexivity.
      * eexists; eexists. split; [reflexivity|]. left. split; [reflexivity|].
        eexists. simpl. rewrite Hc1. reflexivity.
    + rewrite (post_api_waitlist_invalid _ issues s E).
      eexists; eexists. split; [reflexivity|]. right. split; [discriminate | reflexivity].
  - pose proof (after_call_console call_getWaitlistCount s) as Hc. simpl in Hc.
    unfold get_api_waitlist_count, try_catch, mbind at 1, Async_bind at 1.
    destruct (getWaitlistCount s) as [[n|e] s1]; simpl in Hc.
    + eexists; eexists. split; [reflexivity|]. right. split; [discriminate | exact Hc].
    + eexists; eexists. split; [reflexivity|]. left. split; [reflexivity|].
      eexists. simpl. rewrite Hc. reflexivity.
Qed.

(** ** The schema of users *)

(** X11. [insertUserSchema] accepts exactly the objects whose [username]
    and [password] are strings and hands back these two strings as they
    are; any other key of the object, an [id] for one, has no influence
    on the result. *)
Theorem insertUserSchema_accepts_two_strings (input : json) (data : InsertUser.t) :
  (insertUserSchema_safeParse input = SafeParseUserSuccess data <->
   exists fields,
     input = JObj fields /\
     fields !! "username" = Some (JStr (InsertUser.username data)) /\
     fields !! "password" = Some (JStr (InsertUser.password data))) /\
  (forall (fields : gmap string json) (k : string) (v : json),
     ~ In k ["username"; "password"] ->
     insertUserSchema_safeParse (JObj (<[k:=v]> fields)) =
       insertUserSchema_safeParse (JObj fields)).
Proof.
  split.
  - split.
    + destruct input as [| | | | |fields]; simpl; try discriminate.
      intros H. exists fields. split; [reflexivity|].
      destruct (fields !! "username") as [[]|], (fields !! "password") as [[]|];
        simpl in H; try discriminate.
      injection H as <-. auto.
    + intros (fields & -> & Hu & Hp). simpl. rewrite Hu, Hp. simpl.
      destruct data; reflexivity.
  - intros fields k v Hk. simpl in Hk. unfold insertUserSchema_safeParse.
    rewrite !lookup_insert_ne by (intros ->; tauto). reflexivity.
Qed.

Lemma insertUserSchema_accepts_two_strings_witness :
  insertUserSchema_safeParse
    (JObj {[ "id" := JStr "root"; "username" := JStr "alan"; "password" := JStr "enigma" ]}) =
    SafeParseUserSuccess alan.
Proof.
  destruct (insertUserSchema_accepts_two_strings
              (JObj {[ "username" := JStr "alan"; "password" := JStr "enigma" ]}) alan)
    as [[_ Hacc] Hstrip].
  change (JObj {[ "id" := JStr "root"; "username" := JStr "alan";
                  "password" := JStr "enigma" ]})
    with (JObj (<["id" := JStr "root"]>
                  {[ "username" := JStr "alan"; "password" := JStr "enigma" ]})).
  rewrite Hstrip.
  - apply Hacc. eexists. split; [reflexivity|]. split; vm_compute; reflexivity.
  - simpl. intros [H|[H|[]]]; discriminate H.
Defined.

(** ** The form and the server *)

Section ClientFormProperties.

Variable emailRegex_test : string -> bool.

Lemma min_1_parse (msg : string) (p : list string) (data : option json) (x : string) :
  ZodString_checked_parse emailRegex_test [check_min 1 msg] p data = inr x <->
  data = Some (JStr x) /\ x <> "".
Proof.
  unfold ZodString_checked_parse. destruct data as [[| | |input| |]|]; simpl;
    try (split; [discriminate | intros [H _]; discriminate H]).
  destruct input as [|c rest]; simpl.
  - split; [discriminate | intros [[= <-] H]; now destruct H].
  - split; [intros [= <-]; split; [reflexivity | discriminate]
           | intros [[= <-] _]; reflexivity].
Qed.

Lemma email_parse (msg : string) (p : list string) (data : option json) (x : string) :
  ZodString_checked_parse emailRegex_test [check_email msg] p data = inr x <->
  data = Some (JStr x) /\ emailRegex_test x = true.
Proof.
  unfold ZodString_checked_parse. destruct data as [[| | |input| |]|]; simpl;
    try (split; [discriminate | intros [H _]; discriminate H]).
  destruct (emailRegex_test input) eqn:E; simpl.
  - split; [intros [= <-]; auto | intros [[= <-] _]; reflexivity].
  - split; [discriminate | intros [[= <-] H]; congruence].
Qed.

Lemma waitlistSchema_success_iff (input : json) (data : InsertWaitlistRegistration.t) :
  waitlistSchema_safeParse emailRegex_test input = FormParseSuccess data <->
  exists fields,
    input = JObj fields /\
    payload (InsertWaitlistRegistration.firstName data)
      (InsertWaitlistRegistration.lastName data)
      (InsertWaitlistRegistration.email data) fields /\
    InsertWaitlistRegistration.firstName data <> "" /\
    InsertWaitlistRegistration.lastName data <> "" /\
    emailRegex_test (InsertWaitlistRegistration.email data) = true.
Proof.
  split.
  - destruct input as [| | | | |fields]; simpl; try discriminate.
    destruct (ZodString_checked_parse _ [check_min 1 "First name is required"] _ _)
      as [i1|f] eqn:E1;
    destruct (ZodString_checked_parse _ [check_min 1 "Last name is required"] _ _)
      as [i2|l] eqn:E2;
    destruct (ZodString_checked_parse _ [check_email _] _ _) as [i3|e] eqn:E3;
      try discriminate.
    intros [= <-]. simpl.
    apply min_1_parse in E1, E2. apply email_parse in E3.
    destruct E1, E2, E3. exists fields. unfold payload. auto 10.
  - intros (fields & -> & (Hf & Hl & He) & Hfn & Hln & Hem). simpl.
    assert (E1 := proj2 (min_1_parse "First name is required" ["firstName"] _ _)
                    (conj Hf Hfn)).
    assert (E2 := proj2 (min_1_parse "Last name is required" ["lastName"] _ _)
                    (conj Hl Hln)).
    assert (E3 := proj2 (email_parse "Please enter a valid email address" ["email"] _ _)
                    (conj He Hem)).
    rewrite E1, E2, E3. destruct data; reflexivity.
Qed.

(** X12. The schema of the form accepts exactly the objects whose three
    fields are strings, with a first and a last name that are not empty
    and an email that matches zod's pattern; what it hands back are the
    three strings as they are. An empty name, or an email that does not
    match, is reported under its path with the message of the form. *)
Theorem waitlistSchema_accepts (input : json) (data : InsertWaitlistRegistration.t) :
  (waitlistSchema_safeParse emailRegex_test input = FormParseSuccess data <->
   exists fields,
     input = JObj fields /\
     payload (InsertWaitlistRegistration.firstName data)
       (InsertWaitlistRegistration.lastName data)
       (InsertWaitlistRegistration.email data) fields /\
     InsertWaitlistRegistration.firstName data <> "" /\
     InsertWaitlistRegistration.lastName data <> "" /\
     emailRegex_test (InsertWaitlistRegistration.email data) = true) /\
  (forall fields : gmap string json,
     fields !! "firstName" = Some (JStr "") ->
     exists issues,
       waitlistSchema_safeParse emailRegex_test (JObj fields) = FormParseError issues /\
       In (issue_too_small 1 ["firstName"] "First name is required") issues) /\
  (forall fields : gmap string json,
     fields !! "lastName" = Some (JStr "") ->
     exists issues,
       waitlistSchema_safeParse emailRegex_test (JObj fields) = FormParseError issues /\
       In (issue_too_small 1 ["lastName"] "Last name is required") issues) /\
  (forall (fields : gmap string json) (em : string),
     fields !! "email" = Some (JStr em) ->
     emailRegex_test em = false ->
     exists issues,
       waitlistSchema_safeParse emailRegex_test (JObj fields) = FormParseError issues /\
       In (issue_invalid_string "email" ["email"] "Please enter a valid email address")
          issues).
Proof.
  split; [apply waitlistSchema_success_iff|]. split; [|split].
  - intros fields H. simpl. rewrite H. simpl. eexists. split; [reflexivity|]. simpl. auto.
  - intros fields H. simpl. rewrite H. simpl.
    destruct (ZodString_checked_parse _ _ _ (fields !! "firstName")) as [i1|f];
      (eexists; split; [reflexivity|]); apply in_or_app; right; simpl; auto.
  - intros fields em H Hem. simpl. rewrite H. simpl. rewrite Hem. simpl.
    destruct (ZodString_checked_parse _ _ _ (fields !! "firstName")) as [i1|f];
    destruct (ZodString_checked_parse _ _ _ (fields !! "lastName")) as [i2|l];
      (eexists; split; [reflexivity|]); apply in_or_app; right;
      apply in_or_app; right; simpl; auto.
Qed.

(** X13. What the form accepts, the server accepts too, with the same
    three values: a submission that passed the form is never answered
    with 400 by the signup handler, whatever the state of the system; it
    is answered with 201, 409 or 500. *)
Theorem form_accepted_never_400 (input : json) (data : InsertWaitlistRegistration.t)
    (s : Sys) :
  waitlistSchema_safeParse emailRegex_test input = FormParseSuccess data ->
  insertWaitlistRegistrationSchema_safeParse input = SafeParseSuccess data /\
  exists (resp : Response) (s' : Sys),
    post_api_waitlist input s = (Return resp, s') /\
    (status resp = 201 \/ status resp = 409 \/ status resp = 500).
Proof.
  intros H. apply waitlistSchema_success_iff in H.
  destruct H as (fields & -> & Hp & _).
  assert (E : insertWaitlistRegistrationSchema_safeParse (JObj fields) =
              SafeParseSuccess data).
  { rewrite (safeParse_payload fields _ _ _ Hp). destruct data; reflexivity. }
  split; [exact E|].
  rewrite (post_api_waitlist_cases _ _ s E).
  destruct (getWaitlistRegistrationByEmail _ s) as [[[existing|]|e] s1];
    [eexists; eexists; split; [reflexivity | simpl; auto] | |
     eexists; eexists; split; [reflexivity | simpl; auto]].
  destruct (createWaitlistRegistration data s1) as [[[registration|]|e] s2];
    eexists; eexists; (split; [reflexivity | simpl; auto]).
Qed.

End ClientFormProperties.

Lemma waitlistSchema_accepts_witness :
  waitlistSchema_safeParse has_at (JObj ada_fields) =
    FormParseSuccess (InsertWaitlistRegistration.mk "Ada" "Lovelace" "ada@example.com") /\
  exists issues,
    waitlistSchema_safeParse has_at (JObj nameless_fields) = FormParseError issues /\
    In (issue_too_small 1 ["firstName"] "First name is required") issues.
Proof.
  split.
  - apply (waitlistSchema_accepts has_at). exists ada_fields.
    split; [reflexivity|]. split; [repeat split; vm_compute; reflexivity|].
    simpl. repeat split; discriminate.
  - destruct (waitlistSchema_accepts has_at JNull
                (InsertWaitlistRegistration.mk "" "" "")) as (_ & Hfirst & _).
    apply Hfirst. vm_compute. reflexivity.
Defined.

Lemma form_accepted_never_400_witness :
  exists resp,
    fst (post_api_waitlist (JObj ada_fields) ada_registered) = Return resp /\
    (status resp = 201 \/ status resp = 409 \/ status resp = 500).
Proof.
  destruct (form_accepted_never_400 has_at (JObj ada_fields)
              (InsertWaitlistRegistration.mk "Ada" "Lovelace" "ada@example.com")
              ada_registered) as (_ & resp & s' & Hrun & Hstatus).
  - vm_compute. reflexivity.
  - exists resp. rewrite Hrun. split; [reflexivity | exact Hstatus].
Defined.

(** ** Rows are never removed or altered *)

(** X14. No method of the storage class ever removes or alters a row,
    whatever the environment does: after a call both tables are the
    tables of before with rows appended, at most one user among them. *)
Theorem storage_is_append_only (c : StorageCall) (s : Sys) :
  exists (new_users : list User.t) (new_registrations : list WaitlistRegistration.t),
    users (db (after_call c s)) = users (db s) ++ new_users /\
    (length new_users <= 1)%nat /\
    waitlistRegistrations (db (after_call c s)) =
      waitlistRegistrations (db s) ++ new_registrations.
Proof.
  assert (Hread : forall (A : Type) (q : Query)
                         (exec : Z -> Database -> Outcome A * Database),
            (forall now d, snd (exec now d) = d) ->
            exists added,
              users (db (snd (await q exec s))) = users (db s) /\
              waitlistRegistrations (db (snd (await q exec s))) =
                waitlistRegistrations (db s) ++ added).
  { intros A q exec Hexec. rewrite await_cases.
    destruct (interfere_rows (log_query q s)) as [added Hadded].
    pose proof (interfere_users (log_query q s)) as Hu.
    exists added. destruct (fst (interfere _)); simpl; rewrite ?Hexec;
      split; assumption. }
  rewrite after_call_await. destruct c.
  - destruct (Hread _ (select_users_by_id id)
                (fun _ d => exec_select_users_by_id id d)
                (fun _ d => exec_select_users_by_id_snd id d)) as (added & Hu & Hr).
    exists [], added. rewrite app_nil_r. simpl.
    split; [exact Hu|]. split; [lia | exact Hr].
  - destruct (Hread _ (select_users_by_username username)
                (fun _ d => exec_select_users_by_username username d)
                (fun _ d => exec_select_users_by_username_snd username d))
      as (added & Hu & Hr).
    exists [], added. rewrite app_nil_r. simpl.
    split; [exact Hu|]. split; [lia | exact Hr].
  - rewrite await_cases.
    destruct (interfere_rows (log_query (insert_users insertUser) s)) as [added Hadded].
    pose proof (interfere_users (log_query (insert_users insertUser) s)) as Hu.
    destruct (fst (interfere _)); simpl.
    + exists [], added. rewrite app_nil_r. simpl.
      split; [exact Hu|]. split; [lia | exact Hadded].
    + destruct (exec_insert_users_cases insertUser
                  (db (snd (interfere (log_query (insert_users insertUser) s)))))
        as [[-> _]|(-> & _)]; simpl.
      * exists [], added. rewrite app_nil_r. simpl.
        split; [exact Hu|]. split; [lia | exact Hadded].
      * eexists [_], added. rewrite Hu. simpl.
        split; [reflexivity|]. split; [lia | exact Hadded].
  - destruct (Hread _ (select_waitlist_by_email email)
                (fun _ d => exec_select_waitlist_by_email email d)
                (fun _ d => exec_select_waitlist_snd email d)) as (added & Hu & Hr).
    exists [], added. rewrite app_nil_r. simpl.
    split; [exact Hu|]. split; [lia | exact Hr].
  - rewrite <- (after_call_await (call_createWaitlistRegistration insertRegistration) s).
    simpl. exists []. rewrite app_nil_r.
    destruct (preserves_createWaitlistRegistration insertRegistration s)
      as [[Hu [added Hr] _] _].
    exists added. simpl. split; [exact Hu|]. split; [lia | exact Hr].
  - destruct (Hread _ select_count_waitlist
                (fun _ d => (Return (exec_select_count_waitlist d), d))
                (fun _ d => eq_refl)) as (added & Hu & Hr).
    exists [], added. rewrite app_nil_r. simpl.
    split; [exact Hu|]. split; [lia | exact Hr].
Qed.

(** ** Text that the database does not take as it is *)

(** X15. The schema of the server lets a zero byte through, PostgreSQL
    does not: a payload of three strings one of which has a zero byte,
    with an email that is not registered, is answered with 500 without
    any interference. The database refuses the first statement that
    carries the string with its error 22021, the handler logs that error,
    and no row is added. *)
Theorem zero_byte_answered_500 (fields : gmap string json) (fn ln em : string) (s : Sys) :
  env s = [] ->
  payload fn ln em fields ->
  has_NUL fn || has_NUL ln || has_NUL em = true ->
  ~ email_registered (encode_utf8 em) s ->
  exists (resp : Response) (s' : Sys) (e : Error),
    post_api_waitlist (JObj fields) s = (Return resp, s') /\
    status resp = 500 /\
    body resp = JObj {[ "message" := JStr "Internal server error" ]} /\
    err_code e = "22021" /\
    console s' = console s ++ [("Error creating waitlist registration:", e)] /\
    db s' = db s.
Proof.
  intros He Hp Hnul Hfresh.
  rewrite (post_api_waitlist_cases _ (InsertWaitlistRegistration.mk fn ln em))
    by (apply safeParse_payload; exact Hp).
  simpl. destruct (has_NUL em) eqn:Hem.
  - unfold getWaitlistRegistrationByEmail, mbind, Async_bind.
    rewrite await_quiet by exact He.
    unfold exec_select_waitlist_by_email. rewrite Hem. simpl.
    eexists _, _, invalid_byte_sequence.
    split; [reflexivity|]. repeat split.
  - rewrite getWaitlistRegistrationByEmail_quiet by assumption.
    rewrite filter_eqb_absent by (rewrite In_fmap_email; exact Hfresh).
    simpl. unfold createWaitlistRegistration, mbind, Async_bind.
    rewrite await_quiet by exact He.
    rewrite exec_insert_waitlist_eq. simpl. rewrite Hem, Hnul. simpl.
    eexists _, _, invalid_byte_sequence.
    split; [reflexivity|]. repeat split.
Qed.

Lemma zero_byte_answered_500_witness :
  exists (resp : Response) (e : Error),
    fst (post_api_waitlist
           (JObj {[ "firstName" := JStr (String "000"%char "Ada");
                    "lastName" := JStr "Lovelace";
                    "email" := JStr "ada@example.com" ]})
           (boot 0 [])) = Return resp /\
    status resp = 500 /\
    err_code e = "22021" /\
    console (snd (post_api_waitlist
                    (JObj {[ "firstName" := JStr (String "000"%char "Ada");
                             "lastName" := JStr "Lovelace";
                             "email" := JStr "ada@example.com" ]})
                    (boot 0 []))) =
      [("Error creating waitlist registration:", e)] /\
    waitlistRegistrations
      (db (snd (post_api_waitlist
                  (JObj {[ "firstName" := JStr (String "000"%char "Ada");
                           "lastName" := JStr "Lovelace";
                           "email" := JStr "ada@example.com" ]})
                  (boot 0 [])))) = [].
Proof.
  destruct (zero_byte_answered_500
              {[ "firstName" := JStr (String "000"%char "Ada");
                 "lastName" := JStr "Lovelace";
                 "email" := JStr "ada@example.com" ]}
              (String "000"%char "Ada") "Lovelace" "ada@example.com" (boot 0 []))
    as (resp & s' & e & Hrun & Hstatus & _ & Hcode & Hconsole & Hdb).
  - reflexivity.
  - repeat split; vm_compute; reflexivity.
  - reflexivity.
  - apply not_registered_at_boot.
  - exists resp, e. rewrite Hrun. simpl. rewrite Hdb.
    split; [reflexivity|]. split; [exact Hstatus|]. split; [exact Hcode|].
    split; [exact Hconsole | reflexivity].
Defined.

(** X16. What the created response carries is what the database
    stored: without interference, a payload of three strings without a
    zero byte, whose email as stored fits the index and is not
    registered, is answered with 201 and the three values in UTF-8, each
    surrogate without a partner replaced by U+FFFD; the row that is
    added holds the same values. *)
Theorem created_response_echoes_stored_text (fields : gmap string json)
    (fn ln em : string) (s : Sys) :
  env s = [] ->
  payload fn ln em fields ->
  has_NUL fn = false -> has_NUL ln = false -> has_NUL em = false ->
  indexable (encode_utf8 em) ->
  ~ email_registered (encode_utf8 em) s ->
  exists (id : string) (resp : Response) (s' : Sys),
    post_api_waitlist (JObj fields) s = (Return resp, s') /\
    status resp = 201 /\
    body resp =
      JObj {[ "message" := JStr "Successfully added to waitlist";
              "registration" :=
                JObj {[ "id" := JStr id;
                        "firstName" := JStr (encode_utf8 fn);
                        "lastName" := JStr (encode_utf8 ln);
                        "email" := JStr (encode_utf8 em) ]} ]} /\
    waitlistRegistrations (db s') =
      waitlistRegistrations (db s) ++
        [WaitlistRegistration.mk id (encode_utf8 fn) (encode_utf8 ln) (encode_utf8 em)
           (clock s)].
Proof.
  intros He Hp Hfn Hln Hem Hfit Hfresh.
  rewrite (post_api_waitlist_fresh fields fn ln em s He Hp
             (conj Hfn (conj Hln Hem)) Hfit Hfresh).
  eexists _, _, _. split; [reflexivity|]. repeat split.
Qed.

Lemma created_response_echoes_stored_text_witness :
  exists (id : string) (resp : Response),
    fst (post_api_waitlist
           (JObj {[ "firstName" :=
                      JStr ("Ada" ++ String "237"%char (String "160"%char (String "128"%char "")));
                    "lastName" := JStr "Lovelace";
                    "email" := JStr "ada@example.com" ]})
           (boot 0 [])) = Return resp /\
    status resp = 201 /\
    body resp =
      JObj {[ "message" := JStr "Successfully added to waitlist";
              "registration" :=
                JObj {[ "id" := JStr id;
                        "firstName" :=
                          JStr ("Ada" ++
                                String "239"%char (String "191"%char (String "189"%char "")));
                        "lastName" := JStr "Lovelace";
                        "email" := JStr "ada@example.com" ]} ]}.
Proof.
  destruct (created_response_echoes_stored_text
              {[ "firstName" :=
                   JStr ("Ada" ++ String "237"%char (String "160"%char (String "128"%char "")));
                 "lastName" := JStr "Lovelace";
                 "email" := JStr "ada@example.com" ]}
              ("Ada" ++ String "237"%char (String "160"%char (String "128"%char "")))
              "Lovelace" "ada@example.com" (boot 0 []))
    as (id & resp & s' & Hrun & Hstatus & Hbody & _).
  - reflexivity.
  - repeat split; vm_compute; reflexivity.
  - reflexivity.
  - reflexivity.
  - reflexivity.
  - unfold indexable. vm_compute. lia.
  - apply not_registered_at_boot.
  - exists id, resp. rewrite Hrun. split; [reflexivity|]. split; [exact Hstatus|].
    exact Hbody.
Defined.
